(** * The streaming session engine of live-ui-gemini

    A shallow embedding of [sendMessage] (the chat page component) and
    of the React state it drives, with the statements the specification
    makes about one streaming exchange.

    Conventions of the embedding.
    - A JavaScript string is a [string]: a sequence of 8-bit code units.
    - A value that comes out of [JSON.parse] keeps its dynamic type: the
      TypeScript annotations are erased at run time, so a message's
      [content] is whatever the wire record carried.
    - The component state ([useState] cells) is an explicit record; a
      functional update [setMessages(prev => ...)] is applied at once.
    - What the browser provides ([TextDecoder], [JSON.parse],
      [Date.prototype.toISOString]) is a [Platform]; the clock and the
      network of one call are an [Env]. *)

From Stdlib Require Import List String Ascii Bool ZArith QArith Qabs Lia.
From Stdlib Require Import Strings.Byte DecimalString DecimalZ.
Import ListNotations.
Local Open Scope string_scope.
Local Open Scope list_scope.
Local Open Scope bool_scope.

Set Implicit Arguments.
Set Warnings "-register-all".

(** ** JavaScript values *)

Module JS.

(** The values [JSON.parse] can return, and [undefined]. A number is
    kept as the exact rational its literal denotes. *)
Inductive value : Type :=
| VUndefined
| VNull
| VBool (b : bool)
| VNum (q : Q)
| VStr (s : string)
| VArr (elems : list value)
| VObj (props : list (string * value)).

(** A number literal denotes zero as a double when it is at most
    2^-1075 in magnitude (round to nearest, ties to even). *)
Definition is_zero_number (q : Q) : bool :=
  Qle_bool (Qabs q) (1 # (2 ^ 1075)).

(** ToBoolean. *)
Definition truthy (v : value) : bool :=
  match v with
  | VUndefined | VNull => false
  | VBool b => b
  | VNum q => negb (is_zero_number q)
  | VStr s => negb (s =? "")
  | VArr _ | VObj _ => true
  end.

(** [v === 'lit'] for a string literal. *)
Definition strict_eq_str (v : value) (lit : string) : bool :=
  match v with
  | VStr s => s =? lit
  | _ => false
  end.

(** Own property of a parsed object; of two records with one key the
    later one wins. *)
Fixpoint own_prop (props : list (string * value)) (k : string) : value :=
  match props with
  | [] => VUndefined
  | (k', v) :: rest =>
      if existsb (fun p => fst p =? k) rest then own_prop rest k
      else if k' =? k then v else VUndefined
  end.

(** [data.k] for the property names [sendMessage] reads, none of which
    a prototype defines: [None] is the TypeError of reading a property
    of [null] or [undefined]. *)
Definition get_prop (data : value) (k : string) : option value :=
  match data with
  | VUndefined | VNull => None
  | VObj props => Some (own_prop props k)
  | _ => Some VUndefined
  end.

(** [s.startsWith(p)] *)
Definition startsWith (s p : string) : bool := String.prefix p s.

(** [s.slice(n)] for [n >= 0]. *)
Fixpoint slice (n : nat) (s : string) : string :=
  match n, s with
  | O, _ => s
  | S n', String _ s' => slice n' s'
  | S _, EmptyString => EmptyString
  end.

(** [s.split('\n')]: the pieces between line feeds; never empty. *)
Fixpoint split_lf (s : string) : list string :=
  match s with
  | EmptyString => [EmptyString]
  | String c s' =>
      if Ascii.eqb c "010"%char then EmptyString :: split_lf s'
      else match split_lf s' with
           | l :: ls => String c l :: ls
           | [] => [String c EmptyString]
           end
  end.

(** White space and line terminators among the 8-bit code units. *)
Definition is_space (c : ascii) : bool :=
  let n := nat_of_ascii c in
  ((9 <=? n) && (n <=? 13) || (n =? 32) || (n =? 160))%nat.

(** [!s.trim()]: the string is empty once trimmed. *)
Fixpoint trim_is_empty (s : string) : bool :=
  match s with
  | EmptyString => true
  | String c s' => is_space c && trim_is_empty s'
  end.

(** [n.toString()] for an integral number. *)
Definition toString (n : Z) : string :=
  NilEmpty.string_of_int (Z.to_int n).

End JS.
Import JS.

(** ** What the browser provides *)

Class Platform : Type := {
  (** [new TextDecoder().decode(value)] *)
  TextDecoder_decode : list byte -> string;
  (** [JSON.parse(text)]; [None] when it throws a SyntaxError *)
  JSON_parse : string -> option value;
  (** [new Date(ms).toISOString()] *)
  toISOString : Z -> string
}.

(** ** Data model of the component *)

Inductive Role : Type := user | assistant.

Record Message : Type := mkMessage {
  id : string;
  role : Role;
  content : value;
  timestamp : string;
  is_generated_ui : value   (* optional: [VUndefined] when absent *)
}.

(** The [useState] cells [sendMessage] reads or writes. *)
Record State : Type := mkState {
  messages : list Message;
  input : string;
  loading : bool;
  conversationId : value;
  generatedHtml : value;
  showPreview : bool;
  streamingText : value;
  isStreaming : bool
}.

(** The state of a freshly mounted component. *)
Definition initial : State :=
  {| messages := []; input := ""; loading := false;
     conversationId := VStr ""; generatedHtml := VStr "";
     showPreview := false; streamingText := VStr ""; isStreaming := false |}.

(** Body of the POST to [/api/chat/stream]. *)
Record Request : Type := mkRequest {
  message : string;
  conversation_id : value;
  history : list Message
}.

(** What the outside sees of a call besides the state. *)
Inductive Effect : Type :=
| Fetch (req : Request)
| ConsoleLog
| ConsoleError
| ScheduleRefresh (delay : Z).   (* [setTimeout] refreshing both iframes *)

Inductive Exn : Type :=
| SyntaxError
| TypeError
| Error (msg : string)
| NetworkError.

(** How the response body ends once its chunks are consumed. *)
Inductive Ending : Type :=
| EndOfStream      (* [read()] resolves with [done] *)
| ReadFails.       (* [read()] rejects *)

Record Reader : Type := mkReader {
  chunks : list (list byte);
  ending : Ending
}.

Record Response : Type := mkResponse {
  ok : bool;
  body : option Reader
}.

(** The surroundings of one call: the successive readings of the clock
    in milliseconds, and what [fetch] does ([None]: it rejects). *)
Record Env : Type := mkEnv {
  clock : nat -> Z;
  network : option Response
}.

(** ** Running the component: state, clock position, effects, throw *)

Record World : Type := mkWorld {
  react : State;
  tick : nat;
  trace : list Effect
}.

Inductive Completion (A : Type) : Type :=
| Normal (a : A)
| Throw (e : Exn).
Arguments Throw {A} e.

Definition M (A : Type) : Type := World -> Completion A * World.

Definition ret {A} (a : A) : M A := fun w => (Normal a, w).

Definition bind {A B} (m : M A) (k : A -> M B) : M B :=
  fun w =>
    match m w with
    | (Normal a, w') => k a w'
    | (Throw e, w') => (Throw e, w')
    end.

Definition throw {A} (e : Exn) : M A := fun w => (Throw e, w).

(** [try { m } catch (e) { h e }]: what [m] did before throwing stays done. *)
Definition try_catch {A} (m : M A) (h : Exn -> M A) : M A :=
  fun w =>
    match m w with
    | (Normal a, w') => (Normal a, w')
    | (Throw e, w') => h e w'
    end.

(** [try { m } finally { f }] *)
Definition try_finally {A} (m : M A) (f : M unit) : M A :=
  fun w =>
    match m w with
    | (c, w') =>
        match f w' with
        | (Normal _, w'') => (c, w'')
        | (Throw e, w'') => (Throw e, w'')
        end
    end.

Declare Scope js_scope.
Delimit Scope js_scope with js.
Notation "x <- m ;; k" := (bind m (fun x => k))
  (at level 61, m at next level, right associativity) : js_scope.
Notation "m ;; k" := (bind m (fun _ => k))
  (at level 61, right associativity) : js_scope.
Local Open Scope js_scope.

Definition get_state : M State := fun w => (Normal (react w), w).

Definition modify (f : State -> State) : M unit :=
  fun w => (Normal tt, {| react := f (react w); tick := tick w; trace := trace w |}).

(** The world with [es] added to what the outside has seen. *)
Definition logged (es : list Effect) (w : World) : World :=
  {| react := react w; tick := tick w; trace := trace w ++ es |}.

Definition emit (e : Effect) : M unit :=
  fun w => (Normal tt, logged [e] w).

(** One reading of the clock ([Date.now()], [new Date()]). *)
Definition read_clock (env : Env) : M Z :=
  fun w => (Normal (clock env (tick w)),
            {| react := react w; tick := S (tick w); trace := trace w |}).

(** The state with one cell replaced. *)
Definition with_messages (f : list Message -> list Message) (s : State) : State :=
  {| messages := f (messages s); input := input s; loading := loading s;
     conversationId := conversationId s; generatedHtml := generatedHtml s;
     showPreview := showPreview s; streamingText := streamingText s;
     isStreaming := isStreaming s |}.

Definition with_input (v : string) (s : State) : State :=
  {| messages := messages s; input := v; loading := loading s;
     conversationId := conversationId s; generatedHtml := generatedHtml s;
     showPreview := showPreview s; streamingText := streamingText s;
     isStreaming := isStreaming s |}.

Definition with_loading (v : bool) (s : State) : State :=
  {| messages := messages s; input := input s; loading := v;
     conversationId := conversationId s; generatedHtml := generatedHtml s;
     showPreview := showPreview s; streamingText := streamingText s;
     isStreaming := isStreaming s |}.

Definition with_conversationId (v : value) (s : State) : State :=
  {| messages := messages s; input := input s; loading := loading s;
     conversationId := v; generatedHtml := generatedHtml s;
     showPreview := showPreview s; streamingText := streamingText s;
     isStreaming := isStreaming s |}.

Definition with_generatedHtml (v : value) (s : State) : State :=
  {| messages := messages s; input := input s; loading := loading s;
     conversationId := conversationId s; generatedHtml := v;
     showPreview := showPreview s; streamingText := streamingText s;
     isStreaming := isStreaming s |}.

Definition with_showPreview (v : bool) (s : State) : State :=
  {| messages := messages s; input := input s; loading := loading s;
     conversationId := conversationId s; generatedHtml := generatedHtml s;
     showPreview := v; streamingText := streamingText s;
     isStreaming := isStreaming s |}.

Definition with_streamingText (v : value) (s : State) : State :=
  {| messages := messages s; input := input s; loading := loading s;
     conversationId := conversationId s; generatedHtml := generatedHtml s;
     showPreview := showPreview s; streamingText := v;
     isStreaming := isStreaming s |}.

Definition with_isStreaming (v : bool) (s : State) : State :=
  {| messages := messages s; input := input s; loading := loading s;
     conversationId := conversationId s; generatedHtml := generatedHtml s;
     showPreview := showPreview s; streamingText := streamingText s;
     isStreaming := v |}.

(** The setters of the [useState] cells. *)
Definition setMessages (f : list Message -> list Message) : M unit :=
  modify (with_messages f).
Definition setInput (v : string) : M unit := modify (with_input v).
Definition setLoading (v : bool) : M unit := modify (with_loading v).
Definition setConversationId (v : value) : M unit := modify (with_conversationId v).
Definition setGeneratedHtml (v : value) : M unit := modify (with_generatedHtml v).
Definition setShowPreview (v : bool) : M unit := modify (with_showPreview v).
Definition setStreamingText (v : value) : M unit := modify (with_streamingText v).
Definition setIsStreaming (v : bool) : M unit := modify (with_isStreaming v).

(** [{ ...msg, content: v }] and its siblings. *)
Definition with_content (v : value) (msg : Message) : Message :=
  {| id := id msg; role := role msg; content := v;
     timestamp := timestamp msg; is_generated_ui := is_generated_ui msg |}.

Definition with_is_generated_ui (v : value) (msg : Message) : Message :=
  {| id := id msg; role := role msg; content := content msg;
     timestamp := timestamp msg; is_generated_ui := v |}.

(** [prev.map(msg => msg.id === target ? f(msg) : msg)] *)
Definition replaceById (target : string) (f : Message -> Message)
  (prev : list Message) : list Message :=
  map (fun msg => if id msg =? target then f msg else msg) prev.

(** ** sendMessage *)

Inductive Flow : Type := Continue | Break.

Section SendMessage.

Context {platform : Platform}.

(** [data.k], throwing as JavaScript does on [null]. *)
Definition prop (data : value) (k : string) : M value :=
  match get_prop data k with
  | Some v => ret v
  | None => throw TypeError
  end.

(** The body of the inner [try]: dispatch on [data.type]
    (source lines 146-205). The locals [accumulatedText] and
    [currentHtml] are written and read back at once, so the value is
    passed on directly; [finalConversationId] is never read. *)
Definition handle_data (streamingMessageId : string) (data : value) : M Flow :=
  type <- prop data "type" ;;
  if strict_eq_str type "text_chunk" then
    accumulated_text <- prop data "accumulated_text" ;;
    setStreamingText accumulated_text ;;
    setMessages (replaceById streamingMessageId (with_content accumulated_text)) ;;
    ret Continue
  else if strict_eq_str type "html_chunk" || strict_eq_str type "html_complete" then
    html_content <- prop data "html_content" ;;
    setGeneratedHtml html_content ;;
    setShowPreview true ;;
    emit (ScheduleRefresh 50) ;;
    setMessages (replaceById streamingMessageId (with_is_generated_ui (VBool true))) ;;
    ret Continue
  else if strict_eq_str type "complete" then
    conversation_id <- prop data "conversation_id" ;;
    setConversationId conversation_id ;;
    setStreamingText (VStr "") ;;
    html_content <- prop data "html_content" ;;
    (if truthy html_content then
       setGeneratedHtml html_content ;;
       setShowPreview true ;;
       emit (ScheduleRefresh 100)
     else ret tt) ;;
    final_text <- prop data "final_text" ;;
    is_ui <- prop data "is_ui" ;;
    setMessages (replaceById streamingMessageId
                   (fun msg => with_is_generated_ui is_ui (with_content final_text msg))) ;;
    ret Break
  else ret Continue.

(** One iteration of [for (const line of lines)] (lines 142-209). *)
Definition process_line (streamingMessageId : string) (line : string) : M Flow :=
  if startsWith line "data: " then
    try_catch
      (match JSON_parse (slice 6 line) with
       | Some data => handle_data streamingMessageId data
       | None => throw SyntaxError
       end)
      (fun parseError => emit ConsoleError ;; ret Continue)
  else ret Continue.

(** [for (const line of lines) { ... }]; its [break] leaves this loop. *)
Fixpoint for_lines (streamingMessageId : string) (lines : list string) : M unit :=
  match lines with
  | [] => ret tt
  | line :: rest =>
      flow <- process_line streamingMessageId line ;;
      match flow with
      | Break => ret tt
      | Continue => for_lines streamingMessageId rest
      end
  end.

(** [while (true) { read; if (done) break; ... }] (lines 134-211): the
    loop ends when [read()] reports [done] or rejects. *)
Fixpoint read_loop (streamingMessageId : string) (pending : list (list byte))
  (e : Ending) : M unit :=
  match pending with
  | [] =>
      match e with
      | EndOfStream => ret tt
      | ReadFails => throw NetworkError
      end
  | value :: rest =>
      let chunk := TextDecoder_decode value in
      let lines := split_lf chunk in
      for_lines streamingMessageId lines ;;
      read_loop streamingMessageId rest e
  end.

(** [await fetch(...)]. *)
Definition fetch (env : Env) (req : Request) : M Response :=
  emit (Fetch req) ;;
  match network env with
  | Some response => ret response
  | None => throw NetworkError
  end.

Definition error_notice : string :=
  "Sorry, I encountered an error. Please make sure the backend server is running on port 8000.".

(** The message made of the clock readings [n] and [n + 1]:
    [{ id: Date.now().toString(), ..., timestamp: new Date().toISOString() }] *)
Definition message_at (env : Env) (n : nat) (r : Role) (c : value) (ui : value) : Message :=
  {| id := toString (clock env n); role := r; content := c;
     timestamp := toISOString (clock env (S n)); is_generated_ui := ui |}.

Definition new_message (env : Env) (r : Role) (c : value) (ui : value) : M Message :=
  now <- read_clock env ;;
  date <- read_clock env ;;
  ret {| id := toString now; role := r; content := c;
         timestamp := toISOString date; is_generated_ui := ui |}.

(** The request body, from the state the handler closed over
    (lines 104-108). *)
Definition request_of (s : State) : Request :=
  {| message := input s;
     conversation_id := if truthy (conversationId s) then conversationId s else VUndefined;
     history := messages s |}.

(** Lines 81-93: the user's message goes into the transcript and the
    page becomes busy. *)
Definition begin_exchange (env : Env) (s : State) : M unit :=
  userMessage <- new_message env user (VStr (input s)) VUndefined ;;
  setMessages (fun prev => prev ++ [userMessage]) ;;
  setInput "" ;;
  setLoading true ;;
  setIsStreaming true ;;
  setStreamingText (VStr "").

(** Lines 96-211, the body of the outer [try]. *)
Definition try_block (env : Env) (s : State) : M unit :=
  emit ConsoleLog ;;
  response <- fetch env (request_of s) ;;
  if negb (ok response) then throw (Error "Failed to send message")
  else
    match body response with
    | None => throw (Error "No response body")
    | Some reader =>
        streamingMessage <- new_message env assistant (VStr "") (VBool false) ;;
        setMessages (fun prev => prev ++ [streamingMessage]) ;;
        read_loop (id streamingMessage) (chunks reader) (ending reader)
    end.

(** Lines 213-221, the outer [catch]. *)
Definition catch_block (env : Env) (error : Exn) : M unit :=
  emit ConsoleError ;;
  errorMessage <- new_message env assistant (VStr error_notice) VUndefined ;;
  setMessages (fun prev => prev ++ [errorMessage]).

(** Lines 222-226, the [finally]. *)
Definition finally_block : M unit :=
  setLoading false ;;
  setIsStreaming false ;;
  setStreamingText (VStr "").

(** Lines 78-227, as the handler made by the render of the state it is
    called in: the [input], [loading], [isStreaming], [conversationId]
    and [messages] it reads are those of that state. *)
Definition sendMessage (env : Env) : M unit :=
  s <- get_state ;;
  if trim_is_empty (input s) || loading s || isStreaming s then ret tt
  else
    begin_exchange env s ;;
    try_finally (try_catch (try_block env s) (catch_block env)) finally_block.

End SendMessage.

(** ** A reference platform

    The theorems below hold for every [Platform]. The examples run on
    this one: a JSON reader for the grammar of ECMA-404, the identity
    on bytes as text decoder, and the proleptic Gregorian calendar. It
    agrees with a browser on ASCII input; strings being 8-bit here, a
    [\u] escape above 255 is refused. *)

Module JSON.

Definition is_ws (c : ascii) : bool :=
  let n := nat_of_ascii c in
  ((n =? 32) || (n =? 9) || (n =? 10) || (n =? 13))%nat.

Fixpoint skip_ws (s : string) : string :=
  match s with
  | String c s' => if is_ws c then skip_ws s' else s
  | EmptyString => s
  end.

Definition digit_of (c : ascii) : option Z :=
  let n := nat_of_ascii c in
  if ((48 <=? n) && (n <=? 57))%nat then Some (Z.of_nat (n - 48)) else None.

Definition hex_of (c : ascii) : option nat :=
  let n := nat_of_ascii c in
  if ((48 <=? n) && (n <=? 57))%nat then Some (n - 48)%nat
  else if ((65 <=? n) && (n <=? 70))%nat then Some (n - 55)%nat
  else if ((97 <=? n) && (n <=? 102))%nat then Some (n - 87)%nat
  else None.

(** The longest run of decimal digits at the head of [s]. *)
Fixpoint take_digits (s : string) : list Z * string :=
  match s with
  | String c s' =>
      match digit_of c with
      | Some d => let (ds, r) := take_digits s' in (d :: ds, r)
      | None => ([], s)
      end
  | EmptyString => ([], s)
  end.

Definition number_of_digits (ds : list Z) : Z :=
  fold_left (fun acc d => 10 * acc + d)%Z ds 0%Z.

(** The rational [m * 10^e]. *)
Definition scale (m e : Z) : Q :=
  if (0 <=? e)%Z then Qmake (m * 10 ^ e) 1
  else Qmake m (Z.to_pos (10 ^ (- e))).

(** An optional minus sign; [0], or digits not starting with [0]; an
    optional point with digits; an optional exponent with its sign. *)
Definition parse_number (s : string) : option (Q * string) :=
  let (neg, s1) := match s with
                   | String "-" r => (true, r)
                   | _ => (false, s)
                   end in
  let (ints, s2) := take_digits s1 in
  match ints with
  | [] => None
  | d :: ds =>
      if (d =? 0)%Z && negb (Nat.eqb (List.length ds) 0) then None
      else
        let frac := match s2 with
                    | String "." r =>
                        let (fs, s3) := take_digits r in
                        match fs with
                        | [] => None
                        | _ => Some (fs, s3)
                        end
                    | _ => Some ([], s2)
                    end in
        match frac with
        | None => None
        | Some (fs, s3) =>
            let expo :=
              let after_e (r : string) :=
                let (eneg, r1) := match r with
                                  | String "-" r' => (true, r')
                                  | String "+" r' => (false, r')
                                  | _ => (false, r)
                                  end in
                let (es, s4) := take_digits r1 in
                match es with
                | [] => None
                | _ => Some (if eneg then (- number_of_digits es)%Z
                             else number_of_digits es, s4)
                end in
              match s3 with
              | String "e" r => after_e r
              | String "E" r => after_e r
              | _ => Some (0%Z, s3)
              end in
            match expo with
            | None => None
            | Some (e, s4) =>
                let m := number_of_digits (ints ++ fs) in
                let q := scale m (e - Z.of_nat (List.length fs)) in
                Some (if neg then Qopp q else q, s4)
            end
        end
  end.

(** The characters of a string literal after its opening quote, up to
    and past the closing one. *)
Fixpoint parse_chars (s : string) : option (string * string) :=
  let cons (c : ascii) (r : option (string * string)) :=
    match r with
    | Some (body, rest) => Some (String c body, rest)
    | None => None
    end in
  match s with
  | EmptyString => None
  | String "034"%char rest => Some (EmptyString, rest)
  | String "\" (String "u" (String a (String b (String c (String d rest))))) =>
      match hex_of a, hex_of b, hex_of c, hex_of d with
      | Some 0%nat, Some 0%nat, Some h, Some l =>
          cons (ascii_of_nat (16 * h + l)) (parse_chars rest)
      | _, _, _, _ => None
      end
  | String "\" (String e rest) =>
      let unit :=
        match e with
        | "034"%char => Some "034"%char
        | "\"%char => Some "\"%char
        | "/"%char => Some "/"%char
        | "b"%char => Some "008"%char
        | "f"%char => Some "012"%char
        | "n"%char => Some "010"%char
        | "r"%char => Some "013"%char
        | "t"%char => Some "009"%char
        | _ => None
        end in
      match unit with
      | Some c => cons c (parse_chars rest)
      | None => None
      end
  | String "\" EmptyString => None
  | String c rest =>
      if (nat_of_ascii c <? 32)%nat then None else cons c (parse_chars rest)
  end.

Section Containers.

(** The reader of one value, for the elements and members. *)
Variable parse_value : string -> option (value * string).

(** After [[] and white space: [value (, value)* ]]; [n] bounds the
    number of elements. *)
Fixpoint parse_elements (n : nat) (s : string) : option (list value * string) :=
  match n with
  | O => None
  | S n' =>
      match parse_value s with
      | Some (v, r) =>
          match skip_ws r with
          | String "," r' =>
              match parse_elements n' r' with
              | Some (vs, r'') => Some (v :: vs, r'')
              | None => None
              end
          | String "]" r' => Some ([v], r')
          | _ => None
          end
      | None => None
      end
  end.

(** After [{] and white space: [string : value (, string : value)* }]. *)
Fixpoint parse_members (n : nat) (s : string) : option (list (string * value) * string) :=
  match n with
  | O => None
  | S n' =>
      match skip_ws s with
      | String "034"%char r0 =>
          match parse_chars r0 with
          | Some (k, r1) =>
              match skip_ws r1 with
              | String ":" r2 =>
                  match parse_value r2 with
                  | Some (v, r3) =>
                      match skip_ws r3 with
                      | String "," r4 =>
                          match parse_members n' r4 with
                          | Some (ms, r5) => Some ((k, v) :: ms, r5)
                          | None => None
                          end
                      | String "}" r4 => Some ([(k, v)], r4)
                      | _ => None
                      end
                  | None => None
                  end
              | _ => None
              end
          | None => None
          end
      | _ => None
      end
  end.

End Containers.

(** One value with the white space before it; [depth] bounds the
    nesting. *)
Fixpoint parse_value (depth : nat) (s : string) : option (value * string) :=
  match depth with
  | O => None
  | S depth' =>
      let s := skip_ws s in
      match s with
      | String "{" r =>
          match skip_ws r with
          | String "}" r' => Some (VObj [], r')
          | r' =>
              match parse_members (parse_value depth') (String.length r') r' with
              | Some (ms, r'') => Some (VObj ms, r'')
              | None => None
              end
          end
      | String "[" r =>
          match skip_ws r with
          | String "]" r' => Some (VArr [], r')
          | r' =>
              match parse_elements (parse_value depth') (String.length r') r' with
              | Some (vs, r'') => Some (VArr vs, r'')
              | None => None
              end
          end
      | String "034"%char r =>
          match parse_chars r with
          | Some (body, r') => Some (VStr body, r')
          | None => None
          end
      | _ =>
          if String.prefix "true" s then Some (VBool true, slice 4 s)
          else if String.prefix "false" s then Some (VBool false, slice 5 s)
          else if String.prefix "null" s then Some (VNull, slice 4 s)
          else match parse_number s with
               | Some (q, r) => Some (VNum q, r)
               | None => None
               end
      end
  end.

(** [JSON.parse(text)]: one value, then only white space. *)
Definition parse (text : string) : option value :=
  match parse_value (S (String.length text)) text with
  | Some (v, r) =>
      match skip_ws r with
      | EmptyString => Some v
      | _ => None
      end
  | None => None
  end.

End JSON.

Module Calendar.

Local Open Scope Z_scope.

(** Year, month and day of the day number [days] counted from
    1970-01-01. *)
Definition civil_from_days (days : Z) : Z * Z * Z :=
  let z := days + 719468 in
  let era := z / 146097 in
  let doe := z - era * 146097 in
  let yoe := (doe - doe / 1460 + doe / 36524 - doe / 146096) / 365 in
  let doy := doe - (365 * yoe + yoe / 4 - yoe / 100) in
  let mp := (5 * doy + 2) / 153 in
  let d := doy - (153 * mp + 2) / 5 + 1 in
  let m := if mp <? 10 then mp + 3 else mp - 9 in
  let y := yoe + era * 400 + (if m <=? 2 then 1 else 0) in
  (y, m, d).

(** [n] in decimal, padded with zeros to [width] digits. *)
Fixpoint pad (width : nat) (n : Z) : string :=
  match width with
  | O => EmptyString
  | S w => (pad w (n / 10) ++ String (ascii_of_nat (48 + Z.to_nat (n mod 10))) EmptyString)%string
  end.

(** [YYYY-MM-DDTHH:mm:ss.sssZ], for the years 0000 to 9999. *)
Definition toISOString (ms : Z) : string :=
  let '(y, m, d) := civil_from_days (ms / 86400000) in
  let t := ms mod 86400000 in
  (pad 4 y ++ "-" ++ pad 2 m ++ "-" ++ pad 2 d ++ "T" ++
   pad 2 (t / 3600000) ++ ":" ++ pad 2 (t / 60000 mod 60) ++ ":" ++
   pad 2 (t / 1000 mod 60) ++ "." ++ pad 3 (t mod 1000) ++ "Z")%string.

End Calendar.

#[export] Instance reference_platform : Platform := {|
  TextDecoder_decode := string_of_list_byte;
  JSON_parse := JSON.parse;
  toISOString := Calendar.toISOString
|}.

(** ** Calls, sessions and what is observed of a stream *)

(** The page's input box: [onChange={(e) => setInput(e.target.value)}]. *)
Definition typing (text : string) : M unit := setInput text.

(** A world in which nothing has happened yet around state [s]. *)
Definition world_of (s : State) : World :=
  {| react := s; tick := 0; trace := [] |}.

Section Observations.

Context {platform : Platform}.

(** The user types [text] and presses send, from state [s]. *)
Definition send (env : Env) (text : string) (s : State) : World :=
  snd ((typing text ;; sendMessage env) (world_of s)).

(** The lines of the chunks, chunk by chunk, as [read_loop] sees them. *)
Definition lines_of (cs : list (list byte)) : list string :=
  flat_map (fun value => split_lf (TextDecoder_decode value)) cs.

(** The text of the whole stream. *)
Definition decoded_text (cs : list (list byte)) : string :=
  fold_right (fun value acc => (TextDecoder_decode value ++ acc)%string) "" cs.

(** A framed record: a line carrying the event marker. *)
Definition is_record (line : string) : bool := startsWith line "data: ".

(** The [type] of a framed record whose payload parses to something
    with properties. *)
Definition type_of_line (line : string) : option value :=
  if is_record line then
    match JSON_parse (slice 6 line) with
    | Some data => get_prop data "type"
    | None => None
    end
  else None.

Definition is_complete_record (line : string) : bool :=
  match type_of_line line with
  | Some type => strict_eq_str type "complete"
  | None => false
  end.

(** The [accumulated_text] of a [text_chunk] record. *)
Definition text_of_line (line : string) : option value :=
  match type_of_line line with
  | Some type =>
      if strict_eq_str type "text_chunk" then
        match JSON_parse (slice 6 line) with
        | Some data => get_prop data "accumulated_text"
        | None => None
        end
      else None
  | None => None
  end.

(** The content a placeholder holding [c] holds after the
    [text_chunk] records of [lines]: what the last of them carried. *)
Definition text_after (lines : list string) (c : value) : value :=
  fold_left (fun acc line => match text_of_line line with
                             | Some t => t
                             | None => acc
                             end) lines c.

(** What the last [text_chunk] record of [lines] carried; the empty
    string when there is none. *)
Definition last_text (lines : list string) : value := text_after lines (VStr "").

(** The framed records among [lines]. *)
Definition records (lines : list string) : list string := filter is_record lines.

(** No framed record follows the first [complete] record. *)
Fixpoint complete_is_last (lines : list string) : bool :=
  match lines with
  | [] => true
  | line :: rest =>
      if is_complete_record line then forallb (fun l => negb (is_record l)) rest
      else complete_is_last rest
  end.

End Observations.

(** A chunk of text that is empty or ends with a line feed. *)
Fixpoint line_aligned (t : string) : bool :=
  match t with
  | EmptyString => true
  | String c EmptyString => Ascii.eqb c "010"%char
  | String _ t' => line_aligned t'
  end.

Definition is_fetch (e : Effect) : bool :=
  match e with Fetch _ => true | _ => false end.

Definition is_refresh (e : Effect) : bool :=
  match e with ScheduleRefresh _ => true | _ => false end.

(** How many requests, and how many refreshes of the rendering
    surfaces, a trace holds. *)
Definition fetch_count (tr : list Effect) : nat := List.length (filter is_fetch tr).
Definition refresh_count (tr : list Effect) : nat := List.length (filter is_refresh tr).

(** From [w] to [w'] the trace has only grown, by no request; and if
    by no refresh either, the artifact is the same. *)
Definition quiet_step (w w' : World) : Prop :=
  exists added,
    trace w' = trace w ++ added /\
    fetch_count added = 0%nat /\
    (refresh_count added = 0%nat -> generatedHtml (react w') = generatedHtml (react w)).

(** The state is between exchanges. *)
Definition idle (s : State) : Prop := loading s = false /\ isStreaming s = false.

(** The call would go past the guard of [sendMessage]: the page is
    idle and the input box holds more than white space. *)
Definition ready (s : State) : Prop := idle s /\ trim_is_empty (input s) = false.

(** The exchange meets a transport failure: [fetch] rejects, the
    response is not ok or has no body, or reading the body rejects. *)
Definition transport_fails (env : Env) : bool :=
  match network env with
  | None => true
  | Some response =>
      negb (ok response) ||
      match body response with
      | None => true
      | Some reader =>
          match ending reader with
          | ReadFails => true
          | EndOfStream => false
          end
      end
  end.

(** The transcript [ms] ends with the placeholder of the exchange: an
    assistant message with id [target], after [n] earlier messages,
    whose content is [c]. *)
Definition placeholder_holds (target : string) (n : nat) (c : value)
  (ms : list Message) : Prop :=
  exists earlier p,
    ms = earlier ++ [p] /\ List.length earlier = n /\
    id p = target /\ role p = assistant /\ content p = c.

(** The message that closes the transcript [ms], if any. *)
Definition last_message (ms : list Message) : option Message :=
  List.last (map Some ms) None.

(** ** The streams of the examples *)

Module Examples.

Definition LF : string := String "010"%char EmptyString.

(** The text [s] with a double quote for each apostrophe: JSON written
    with apostrophes around its strings. *)
Fixpoint json (s : string) : string :=
  match s with
  | EmptyString => EmptyString
  | String c s' => String (if Ascii.eqb c "'"%char then "034"%char else c) (json s')
  end.

(** A record as the server frames it: the marker, the payload, an
    empty line. *)
Definition framed (payload : string) : string :=
  ("data: " ++ json payload ++ LF ++ LF)%string.

Definition text_chunk_record : string :=
  framed "{'type':'text_chunk','accumulated_text':'Sure, here is a form'}".

Definition html_chunk_record : string :=
  framed "{'type':'html_chunk','html_content':'<form></form>'}".

Definition complete_record : string :=
  framed "{'type':'complete','final_text':'Sure, here is a form','is_ui':true,'html_content':'<form></form>'}".

Definition bytes (s : string) : list byte := list_byte_of_string s.

(** A response that is accepted and delivers [cs], then ends as [e]. *)
Definition streaming (cs : list (list byte)) (e : Ending) : option Response :=
  Some {| ok := true; body := Some {| chunks := cs; ending := e |} |}.

(** A clock that advances by one millisecond at each reading. *)
Definition ticking (start : Z) : nat -> Z := fun n => (start + Z.of_nat n)%Z.

(** A clock that shows the same millisecond at each reading. *)
Definition frozen (t : Z) : nat -> Z := fun _ => t.

(** A clock that shows [t0] while the user's message is made and [t1]
    at every later reading: the response arrived, and what follows
    happens within one millisecond. *)
Definition coarse (t0 t1 : Z) : nat -> Z :=
  fun n => if (n <? 2)%nat then t0 else t1.

(** The response to the login form request, as one text. *)
Definition login_form_response : string :=
  (text_chunk_record ++ html_chunk_record ++ complete_record)%string.

(** The same text cut in three: inside the [html_chunk] record and
    inside the [complete] record. *)
Definition login_form_pieces : list string :=
  [substring 0 90 login_form_response;
   substring 90 80 login_form_response;
   substring 170 (String.length login_form_response - 170) login_form_response].

(** The outcome the specification gives for the request
    [{message: "Create a login form"}]: the request went out, the
    transcript is the user's message and one assistant message marked
    as a generated artifact with the final text, and the stored
    artifact is the form. *)
Definition login_form_outcome (w : World) : Prop :=
  In (Fetch {| message := "Create a login form"; conversation_id := VUndefined;
               history := [] |}) (trace w) /\
  exists u a,
    messages (react w) = [u; a] /\ role u = user /\ role a = assistant /\
    is_generated_ui a = VBool true /\ content a = VStr "Sure, here is a form" /\
    generatedHtml (react w) = VStr "<form></form>".

End Examples.

Import Examples.

(** ** A handler and the render that made it

    [sendMessage] is made anew by every render and closes over the
    values the cells had in that render: [input], [loading],
    [isStreaming], [conversationId] and [messages] at lines 79, 84,
    105-107 are constants of the render, while the setters act on the
    cells as they are when called. A call is suspended at
    [await fetch(...)] (line 99) with the request out. *)

Section Renders.

Context {platform : Platform}.

(** Lines 78-227 of the handler made by the render of [render]. *)
Definition sendMessage_of_render (render : State) (env : Env) : M unit :=
  if trim_is_empty (input render) || loading render || isStreaming render then ret tt
  else
    begin_exchange env render ;;
    try_finally (try_catch (try_block env render) (catch_block env)) finally_block.

(** Lines 78-109, up to the [await]: whether the call went past the
    guard; if so the user's message is in, the page is busy and the
    request is out. *)
Definition sendMessage_until_fetch (render : State) (env : Env) : M bool :=
  if trim_is_empty (input render) || loading render || isStreaming render then ret false
  else
    begin_exchange env render ;;
    emit ConsoleLog ;;
    emit (Fetch (request_of render)) ;;
    ret true.

(** Lines 109-211, the outer [try] from the moment [fetch] settles. *)
Definition try_block_after_fetch (env : Env) : M unit :=
  response <- match network env with
              | Some response => ret response
              | None => throw NetworkError
              end ;;
  if negb (ok response) then throw (Error "Failed to send message")
  else
    match body response with
    | None => throw (Error "No response body")
    | Some reader =>
        streamingMessage <- new_message env assistant (VStr "") (VBool false) ;;
        setMessages (fun prev => prev ++ [streamingMessage]) ;;
        read_loop (id streamingMessage) (chunks reader) (ending reader)
    end.

(** Lines 109-227: the call resumed once [fetch] has settled. *)
Definition sendMessage_after_fetch (env : Env) : M unit :=
  try_finally (try_catch (try_block_after_fetch env) (catch_block env)) finally_block.

End Renders.

(** ** The course of a call that goes past the guard *)

Section Course.

Context {platform : Platform}.

(** The world once the user's message is in and the request is out;
    once the [catch] has run on [w1]; once the [finally] has run. *)
Definition requested (env : Env) (w : World) : World :=
  logged [Fetch (request_of (react w))]
    (logged [ConsoleLog] (snd (begin_exchange env (react w) w))).

Definition caught (env : Env) (w1 : World) : World :=
  snd (catch_block env NetworkError w1).

Definition settled (w1 : World) : World := snd (finally_block w1).

(** The world in which the body starts to be read: the placeholder,
    made of the next two clock readings, closes the transcript. *)
Definition reading (env : Env) (w : World) : World :=
  snd ((streamingMessage <- new_message env assistant (VStr "") (VBool false) ;;
        setMessages (fun prev => prev ++ [streamingMessage])) (requested env w)).

(** The id of that placeholder. *)
Definition placeholder_id (env : Env) (w : World) : string :=
  toString (clock env (2 + tick w)).

(** The world the call ends in. *)
Definition exchange_outcome (env : Env) (w : World) : World :=
  settled
    match network env with
    | None => caught env (requested env w)
    | Some response =>
        if negb (ok response) then caught env (requested env w)
        else
          match body response with
          | None => caught env (requested env w)
          | Some reader =>
              let w1 := snd (read_loop (placeholder_id env w) (chunks reader)
                               (ending reader) (reading env w)) in
              match ending reader with
              | EndOfStream => w1
              | ReadFails => caught env w1
              end
          end
    end.

End Course.

(** ** The rest of the page

    What the page does around [sendMessage]: the controls that lead to
    it, the rendering surfaces, the helpers of the preview pane and the
    configuration of the backend address. *)

(** [disabled={loading || isStreaming || !input.trim()}] of the send
    button (line 364) and [disabled={loading || isStreaming}] of the
    input box (line 360). *)
Definition send_disabled (s : State) : bool :=
  loading s || isStreaming s || trim_is_empty (input s).

Definition input_disabled (s : State) : bool := loading s || isStreaming s.

(** [generatedHtml ? <iframe/> : <empty state/>] (line 415) and
    [message.is_generated_ui && <badge/>] (line 323). *)
Definition preview_pane_shows_artifact (s : State) : bool := truthy (generatedHtml s).

Definition badge_shown (msg : Message) : bool := truthy (is_generated_ui msg).

(** The part of a keyboard event [handleKeyPress] looks at. *)
Record KeyboardEvent : Type := mkKeyboardEvent {
  key : string;
  shiftKey : bool
}.

(** Lines 229-234; the result tells whether [preventDefault] was
    called. *)
Definition handleKeyPress {platform : Platform} (env : Env) (e : KeyboardEvent) : M bool :=
  if (key e =? "Enter") && negb (shiftKey e) then
    sendMessage env ;; ret true
  else ret false.

(** The string [type] reads when it is none of the four the dispatch
    knows. *)
Definition unrecognised (type : value) : bool :=
  negb (strict_eq_str type "text_chunk" || strict_eq_str type "html_chunk"
        || strict_eq_str type "html_complete" || strict_eq_str type "complete").

(** The ids an exchange adds to the transcript: the first and third
    readings of the clock, and the fifth when reading the body rejects. *)
Definition ids_added (env : Env) (n : nat) : list string :=
  toString (clock env n) :: toString (clock env (2 + n)) ::
  match network env with
  | Some {| ok := true; body := Some {| ending := ReadFails |} |} =>
      [toString (clock env (4 + n))]
  | _ => []
  end.

(** Message [m'] is message [m] after a stream whose placeholder has
    id [target]: same id, role and timestamp, and the same message
    altogether when its id is another one. *)
Definition same_message_but (target : string) (m m' : Message) : Prop :=
  id m' = id m /\ role m' = role m /\ timestamp m' = timestamp m /\
  (id m <> target -> m' = m).

Module Dom.

(** The two rendering surfaces: [iframeRef] and [fullScreenIframeRef]. *)
Inductive Frame : Type := InlineFrame | FullScreenFrame.

Definition Frame_eqb (a b : Frame) : bool :=
  match a, b with
  | InlineFrame, InlineFrame | FullScreenFrame, FullScreenFrame => true
  | _, _ => false
  end.

(** What the helpers ask of the browser, in the order they ask it. A
    blob URL is a number: [URL.createObjectURL] never gives the same
    one twice. *)
Inductive Call : Type :=
| CreateObjectURL (content : value) (url : nat)
| SetSrc (frame : Frame) (url : nat)
| RevokeLater (delay : Z) (url : nat)       (* [setTimeout(() => URL.revokeObjectURL(url), delay)] *)
| RevokeObjectURL (url : nat)
| DocumentWrite (frame : Frame) (content : value)   (* [open(); write(content); close()] *)
| WindowOpen (url : nat)
| Download (url : nat) (name : string)      (* an anchor appended, clicked and removed *)
| UpdateLater (delay : Z) (frame : Frame) (content : value)
| LogError.

(** What the browser answers. Assigning [src] and registering a timer
    do not throw. *)
Record Browser : Type := mkBrowser {
  mounted : Frame -> bool;        (* [ref.current] is an element *)
  blob_urls : bool;               (* [new Blob] and [createObjectURL] succeed *)
  document_of : Frame -> bool;    (* [contentDocument || contentWindow?.document] is there *)
  writable : Frame -> bool        (* [open], [write] and [close] do not throw *)
}.

Record Dom : Type := mkDom {
  next_url : nat;
  calls : list Call
}.

Definition empty : Dom := {| next_url := 0; calls := [] |}.

Definition call (cs : list Call) (d : Dom) : Dom :=
  {| next_url := next_url d; calls := calls d ++ cs |}.

(** [URL.createObjectURL(new Blob([content], ...))] *)
Definition createObjectURL (content : value) (d : Dom) : nat * Dom :=
  (next_url d,
   {| next_url := S (next_url d);
      calls := calls d ++ [CreateObjectURL content (next_url d)] |}).

(** [ref.current] *)
Definition current (b : Browser) (f : Frame) : option Frame :=
  if mounted b f then Some f else None.

(** Lines 47-76. The blob URL first; should that throw, the document
    of the frame is written directly; should that throw too, the error
    is logged and the update is dropped. *)
Definition updateIframeContent (b : Browser) (iframe : option Frame) (htmlContent : value)
  (d : Dom) : Dom :=
  match iframe with
  | None => d
  | Some f =>
      if blob_urls b then
        let (url, d1) := createObjectURL htmlContent d in
        call [SetSrc f url; RevokeLater 1000 url] d1
      else
        let d1 := call [LogError] d in
        if document_of b f then
          if writable b f then call [DocumentWrite f htmlContent] d1
          else call [LogError] d1
        else d1
  end.

(** What the timers of [sendMessage] run (lines 166-167, 188-189): both
    surfaces, the inline one first. *)
Definition refresh_surfaces (b : Browser) (html : value) (d : Dom) : Dom :=
  updateIframeContent b (current b FullScreenFrame) html
    (updateIframeContent b (current b InlineFrame) html d).

(** Lines 240-246; [None] when the handler throws. *)
Definition openInNewTab (b : Browser) (s : State) (d : Dom) : option Dom :=
  if truthy (generatedHtml s) then
    if blob_urls b then
      let (url, d1) := createObjectURL (generatedHtml s) d in
      Some (call [WindowOpen url] d1)
    else None
  else Some d.

(** Lines 248-260. *)
Definition downloadHtml (b : Browser) (s : State) (d : Dom) : option Dom :=
  if truthy (generatedHtml s) then
    if blob_urls b then
      let (url, d1) := createObjectURL (generatedHtml s) d in
      Some (call [Download url "generated-page.html"; RevokeObjectURL url] d1)
    else None
  else Some d.

(** Lines 262-270: the new value of [fullScreenPreview], and the timer
    registered when the modal opens on an artifact. *)
Definition toggleFullScreenPreview (fullScreenPreview : bool) (s : State) (d : Dom)
  : bool * Dom :=
  (negb fullScreenPreview,
   if negb fullScreenPreview && truthy (generatedHtml s)
   then call [UpdateLater 100 FullScreenFrame (generatedHtml s)] d
   else d).

(** What a user and the timers can make the helpers do. *)
Inductive Action : Type :=
| Refresh (html : value)
| Update (frame : Frame) (html : value)
| OpenInNewTab (s : State)
| DownloadHtml (s : State).

(** One action; a handler that throws leaves things as they were. *)
Definition act (b : Browser) (d : Dom) (a : Action) : Dom :=
  match a with
  | Refresh html => refresh_surfaces b html d
  | Update f html => updateIframeContent b (current b f) html d
  | OpenInNewTab s => match openInNewTab b s d with Some d' => d' | None => d end
  | DownloadHtml s => match downloadHtml b s d with Some d' => d' | None => d end
  end.

Definition run (b : Browser) (actions : list Action) (d : Dom) : Dom :=
  fold_left (act b) actions d.

(** The blob URLs made, released (at once or by a timer) and handed to
    a new tab, in the order of the calls. *)
Definition created_urls (cs : list Call) : list nat :=
  flat_map (fun c => match c with CreateObjectURL _ u => [u] | _ => [] end) cs.

Definition released_urls (cs : list Call) : list nat :=
  flat_map (fun c => match c with
                     | RevokeLater _ u | RevokeObjectURL u => [u]
                     | _ => []
                     end) cs.

Definition opened_urls (cs : list Call) : list nat :=
  flat_map (fun c => match c with WindowOpen u => [u] | _ => [] end) cs.

(** The blob URLs are in order: those made are below the next one,
    pairwise distinct, and those released are those made that were not
    handed to a new tab. *)
Definition urls_in_order (d : Dom) : Prop :=
  (forall u, In u (created_urls (calls d)) -> u < next_url d)%nat /\
  NoDup (created_urls (calls d)) /\
  (forall u, In u (opened_urls (calls d)) -> In u (created_urls (calls d))) /\
  released_urls (calls d)
  = filter (fun u => negb (existsb (Nat.eqb u) (opened_urls (calls d))))
      (created_urls (calls d)).

(** What a frame was last given: the content of the blob its [src]
    points to, or what was written into its document. *)
Definition bind_step (f : Frame) (st : list (nat * value) * option value) (c : Call)
  : list (nat * value) * option value :=
  match c with
  | CreateObjectURL content u => ((u, content) :: fst st, snd st)
  | SetSrc f' u =>
      if Frame_eqb f' f
      then (fst st, match find (fun p => Nat.eqb (fst p) u) (fst st) with
                    | Some p => Some (snd p)
                    | None => None
                    end)
      else st
  | DocumentWrite f' content => if Frame_eqb f' f then (fst st, Some content) else st
  | _ => st
  end.

Definition shown (d : Dom) (f : Frame) : option value :=
  snd (fold_left (bind_step f) (calls d) ([], None)).

(** The frame can be given content one way or the other. *)
Definition bindable (b : Browser) (f : Frame) : bool :=
  mounted b f && (blob_urls b || document_of b f && writable b f).

End Dom.

Module Config.

(** [src/config.ts]. The environment variable is a string or absent. *)
Definition default_backendUrl : string := "http://localhost:8000".

(** [process.env.NEXT_PUBLIC_BACKEND_URL || 'http://localhost:8000'] *)
Definition backendUrl (NEXT_PUBLIC_BACKEND_URL : option string) : string :=
  match NEXT_PUBLIC_BACKEND_URL with
  | Some url => if url =? "" then default_backendUrl else url
  | None => default_backendUrl
  end.

Definition endpoints : list (string * string) :=
  [("chatStream", "/api/chat/stream");
   ("chat", "/api/chat");
   ("health", "/api/health");
   ("conversations", "/api/conversations");
   ("render", "/api/render");
   ("renderHtml", "/api/render-html");
   ("html", "/api/html");
   ("htmlRaw", "/api/html-raw")].

Definition getApiUrl (NEXT_PUBLIC_BACKEND_URL : option string) (endpoint : string) : string :=
  (backendUrl NEXT_PUBLIC_BACKEND_URL ++ endpoint)%string.

(** The address [sendMessage] posts to (line 99). *)
Definition stream_url (NEXT_PUBLIC_BACKEND_URL : option string) : string :=
  getApiUrl NEXT_PUBLIC_BACKEND_URL "/api/chat/stream".

End Config.

(** * Properties *)

(** ** The loops *)

Ltac run_monad :=
  unfold prop, bind, ret, throw, try_catch, try_finally, get_state,
    setMessages, setInput, setLoading, setConversationId, setGeneratedHtml,
    setShowPreview, setStreamingText, setIsStreaming, modify, emit, logged, read_clock in *;
  cbn [fst snd react tick trace] in *.

(** Unfold the record updates and read the fields off. *)
Ltac fields :=
  cbn [fst snd react tick trace messages input loading conversationId generatedHtml
       showPreview streamingText isStreaming
       with_messages with_input with_loading with_conversationId
       with_generatedHtml with_showPreview with_streamingText with_isStreaming] in *.

(** Two states with the same cells are the same state. *)
Lemma state_ext (s1 s2 : State) :
  messages s1 = messages s2 -> input s1 = input s2 -> loading s1 = loading s2 ->
  conversationId s1 = conversationId s2 -> generatedHtml s1 = generatedHtml s2 ->
  showPreview s1 = showPreview s2 -> streamingText s1 = streamingText s2 ->
  isStreaming s1 = isStreaming s2 -> s1 = s2.
Proof. destruct s1, s2. cbn. intros; subst; reflexivity. Qed.

Section Loops.

Context {platform : Platform}.

Variable streamingMessageId : string.

(** A line without the event marker is passed over. *)
Lemma process_line_unframed line w :
  is_record line = false ->
  process_line streamingMessageId line w = (Normal Continue, w).
Proof.
  unfold process_line, is_record. intros ->. reflexivity.
Qed.

(** Reading a property of a value that has properties does not throw. *)
Lemma handle_data_normal data w :
  get_prop data "type" <> None ->
  exists flow w', handle_data streamingMessageId data w = (Normal flow, w').
Proof.
  intros Hty.
  assert (Hall : forall k, exists v, get_prop data k = Some v).
  { intros k. destruct data; cbn in *; try congruence; eauto. }
  unfold handle_data, prop.
  destruct (Hall "type") as [ty ->].
  destruct (Hall "accumulated_text") as [a Ha].
  destruct (Hall "html_content") as [h Hh].
  destruct (Hall "conversation_id") as [c Hc].
  destruct (Hall "final_text") as [f Hf].
  destruct (Hall "is_ui") as [u Hu].
  run_monad.
  destruct (strict_eq_str ty "text_chunk").
  { rewrite Ha. eauto. }
  destruct (strict_eq_str ty "html_chunk" || strict_eq_str ty "html_complete").
  { rewrite Hh. eauto. }
  destruct (strict_eq_str ty "complete"); [|eauto].
  rewrite Hc, Hh. destruct (truthy h); rewrite Hf, Hu; eauto.
Qed.

(** The inner [try] catches whatever a line throws. *)
Lemma process_line_normal line w :
  exists flow w', process_line streamingMessageId line w = (Normal flow, w').
Proof.
  unfold process_line.
  destruct (startsWith line "data: "); [|unfold ret; eauto].
  unfold try_catch.
  destruct (JSON_parse (slice 6 line)) as [data|].
  - destruct (get_prop data "type") eqn:Hty.
    + destruct (@handle_data_normal data w) as (flow & w' & ->); [congruence|]. eauto.
    + unfold handle_data, prop. rewrite Hty. run_monad. eauto.
  - run_monad. eauto.
Qed.

Lemma for_lines_normal lines : forall w,
  exists w', for_lines streamingMessageId lines w = (Normal tt, w').
Proof.
  induction lines as [|line rest IH]; intros w; cbn [for_lines].
  - unfold ret. eauto.
  - unfold bind. destruct (process_line_normal line w) as (flow & w' & ->).
    destruct flow; [apply IH | unfold ret; eauto].
Qed.

End Loops.

(** ** What an event leaves alone *)

Ltac split_props :=
  repeat match goal with
         | |- context [match get_prop ?d ?k with _ => _ end] =>
             destruct (get_prop d k)
         | |- context [if ?b then _ else _] => destruct b
         end.

Section Frames.

Context {platform : Platform}.

Variable streamingMessageId : string.

(** No event touches the input box, the two busy flags or the clock. *)
Lemma handle_data_frame data w :
  let w' := snd (handle_data streamingMessageId data w) in
  input (react w') = input (react w) /\
  loading (react w') = loading (react w) /\
  isStreaming (react w') = isStreaming (react w) /\
  tick w' = tick w.
Proof.
  unfold handle_data. run_monad. split_props; cbn; auto.
Qed.

Lemma process_line_frame line w :
  let w' := snd (process_line streamingMessageId line w) in
  input (react w') = input (react w) /\
  loading (react w') = loading (react w) /\
  isStreaming (react w') = isStreaming (react w) /\
  tick w' = tick w.
Proof.
  unfold process_line. destruct (startsWith line "data: "); [|cbn; auto].
  unfold try_catch. destruct (JSON_parse (slice 6 line)) as [data|].
  - pose proof (handle_data_frame data w) as H. cbn zeta in H.
    destruct (handle_data streamingMessageId data w) as [[flow|e] w']; cbn in *; auto.
  - cbn. auto.
Qed.

Lemma for_lines_frame lines : forall w,
  let w' := snd (for_lines streamingMessageId lines w) in
  input (react w') = input (react w) /\
  loading (react w') = loading (react w) /\
  isStreaming (react w') = isStreaming (react w) /\
  tick w' = tick w.
Proof.
  induction lines as [|line rest IH]; intros w; cbn [for_lines]; [cbn; auto|].
  unfold bind. pose proof (process_line_frame line w) as H. cbn zeta in H.
  destruct (process_line streamingMessageId line w) as [[[|]|e] w1]; cbn [snd] in *; auto.
  specialize (IH w1). cbn zeta in IH. intuition congruence.
Qed.

Lemma read_loop_frame cs e : forall w,
  let w' := snd (read_loop streamingMessageId cs e w) in
  input (react w') = input (react w) /\
  loading (react w') = loading (react w) /\
  isStreaming (react w') = isStreaming (react w) /\
  tick w' = tick w.
Proof.
  induction cs as [|value rest IH]; intros w; cbn [read_loop].
  - destruct e; cbn; auto.
  - unfold bind.
    pose proof (for_lines_frame (split_lf (TextDecoder_decode value)) w) as H.
    cbn zeta in H.
    destruct (for_lines_normal streamingMessageId (split_lf (TextDecoder_decode value)) w)
      as [w1 Hw1].
    rewrite Hw1 in *. cbn [snd] in H.
    specialize (IH w1). cbn zeta in IH. intuition congruence.
Qed.

(** What the state becomes depends on the state alone, not on the
    effects already logged. *)
Lemma handle_data_react data w1 w2 :
  react w1 = react w2 ->
  fst (handle_data streamingMessageId data w1) = fst (handle_data streamingMessageId data w2) /\
  react (snd (handle_data streamingMessageId data w1))
  = react (snd (handle_data streamingMessageId data w2)).
Proof.
  destruct w1 as [s1 t1 tr1], w2 as [s2 t2 tr2]. cbn [react]. intros <-.
  unfold handle_data. run_monad. split_props; cbn; auto.
Qed.

Lemma process_line_react line w1 w2 :
  react w1 = react w2 ->
  fst (process_line streamingMessageId line w1) = fst (process_line streamingMessageId line w2) /\
  react (snd (process_line streamingMessageId line w1))
  = react (snd (process_line streamingMessageId line w2)).
Proof.
  intros H. unfold process_line. destruct (startsWith line "data: "); [|cbn; auto].
  unfold try_catch. destruct (JSON_parse (slice 6 line)) as [data|].
  - destruct (handle_data_react data w1 w2 H) as [Hc Hs].
    destruct (handle_data streamingMessageId data w1) as [[f1|e1] w1'],
             (handle_data streamingMessageId data w2) as [[f2|e2] w2'];
      cbn in *; try discriminate; auto.
  - cbn. auto.
Qed.

Lemma for_lines_react lines : forall w1 w2,
  react w1 = react w2 ->
  react (snd (for_lines streamingMessageId lines w1))
  = react (snd (for_lines streamingMessageId lines w2)).
Proof.
  induction lines as [|line rest IH]; intros w1 w2 H; cbn [for_lines]; [cbn; auto|].
  unfold bind. destruct (process_line_react line w1 w2 H) as [Hc Hs].
  destruct (process_line_normal streamingMessageId line w1) as (f1 & w1' & E1).
  destruct (process_line_normal streamingMessageId line w2) as (f2 & w2' & E2).
  rewrite E1, E2 in *. cbn in Hc, Hs. injection Hc as <-.
  destruct f1; cbn; auto.
Qed.

End Frames.

(** ** Replacing a message by id *)

Lemma replaceById_length target f prev :
  List.length (replaceById target f prev) = List.length prev.
Proof. apply length_map. Qed.

Lemma replaceById_app target f l1 l2 :
  replaceById target f (l1 ++ l2) = replaceById target f l1 ++ replaceById target f l2.
Proof. apply map_app. Qed.

(** Replacing twice with a transformation that keeps the id and is
    idempotent is replacing once. *)
Lemma replaceById_idempotent target f prev :
  (forall msg, id (f msg) = id msg) ->
  (forall msg, f (f msg) = f msg) ->
  replaceById target f (replaceById target f prev) = replaceById target f prev.
Proof.
  intros Hid Hff. unfold replaceById. rewrite map_map. apply map_ext. intros msg.
  destruct (id msg =? target) eqn:E.
  - rewrite Hid, E. apply Hff.
  - rewrite E. reflexivity.
Qed.

(** ** The busy guard *)

Section Guard.

Context {platform : Platform}.

(** The handler made by the render of the current state: while that
    state is loading or streaming it does nothing, the world it returns
    is the world it was given; and reading a stream never clears the
    busy flags. *)
Lemma send_while_busy_is_noop (env : Env) (w : World) :
  loading (react w) = true \/ isStreaming (react w) = true ->
  sendMessage env w = (Normal tt, w) /\
  forall streamingMessageId cs e,
    let w' := snd (read_loop streamingMessageId cs e w) in
    loading (react w') = true \/ isStreaming (react w') = true.
Proof.
  intros Hbusy. split.
  - unfold sendMessage, bind, get_state.
    replace (trim_is_empty (input (react w)) || loading (react w) || isStreaming (react w))
      with true; [reflexivity|].
    destruct Hbusy as [-> | ->]; rewrite ?orb_true_r; reflexivity.
  - intros sid cs e.
    destruct (read_loop_frame sid cs e w) as (_ & Hl & Hs & _).
    cbn zeta. rewrite Hl, Hs. exact Hbusy.
Qed.

(** [sendMessage] is the handler of the render of the state it is
    called in. *)
Lemma sendMessage_of_current_render env w :
  sendMessage env w = sendMessage_of_render (react w) env w.
Proof. reflexivity. Qed.

(** A handler does nothing when the render that made it was busy or
    had a blank input box, whatever the cells hold by now. *)
Lemma handler_of_busy_render_is_noop render env w :
  trim_is_empty (input render) || loading render || isStreaming render = true ->
  sendMessage_of_render render env w = (Normal tt, w) /\
  sendMessage_until_fetch render env w = (Normal false, w).
Proof.
  intros H. unfold sendMessage_of_render, sendMessage_until_fetch. rewrite H.
  split; reflexivity.
Qed.

End Guard.

(** ** Malformed records *)

Section Malformed.

Context {platform : Platform}.

(** C9. A framed record whose payload does not parse is skipped: the
    state is as before (only an error is logged), the loop goes on to
    the lines that follow, and the state the stream ends in is the one
    it would end in without that record. *)
Theorem malformed_record_is_skipped
  (streamingMessageId : string) (line : string) (rest : list string) (w : World) :
  is_record line = true ->
  JSON_parse (slice 6 line) = None ->
  let w' := logged [ConsoleError] w in
  process_line streamingMessageId line w = (Normal Continue, w') /\
  for_lines streamingMessageId (line :: rest) w = for_lines streamingMessageId rest w' /\
  forall before,
    react (snd (for_lines streamingMessageId (before ++ line :: rest) w))
    = react (snd (for_lines streamingMessageId (before ++ rest) w)).
Proof.
  intros Hrec Hparse w'.
  assert (Hline : forall w0, process_line streamingMessageId line w0
            = (Normal Continue, logged [ConsoleError] w0)).
  { intros w0. unfold process_line. unfold is_record in Hrec. rewrite Hrec, Hparse.
    reflexivity. }
  split; [apply Hline|]. split.
  - cbn [for_lines]. unfold bind. rewrite Hline. reflexivity.
  - intros before. clear w'. revert w.
    induction before as [|b before IH]; intros w.
    + cbn [app for_lines]. unfold bind at 1. rewrite Hline.
      apply for_lines_react. reflexivity.
    + cbn [app for_lines]. unfold bind.
      destruct (process_line streamingMessageId b w) as [[[|]|e] w1]; cbn [snd];
        auto.
Qed.

End Malformed.

(** A record cut short, followed by a sound one. *)
Lemma malformed_record_is_skipped_witness :
  let line := json "data: {'type':'text_ch" in
  let rest := [json "data: {'type':'text_chunk','accumulated_text':'Hi'}"] in
  let w := world_of initial in
  let w' := logged [ConsoleError] w in
  process_line "7" line w = (Normal Continue, w') /\
  for_lines "7" (line :: rest) w = for_lines "7" rest w' /\
  forall before,
    react (snd (for_lines "7" (before ++ line :: rest) w))
    = react (snd (for_lines "7" (before ++ rest) w)).
Proof.
  intros line rest w w'.
  apply (@malformed_record_is_skipped reference_platform "7" line rest w);
    vm_compute; reflexivity.
Defined.

(** ** Artifact events *)

Section Artifact.

Context {platform : Platform}.

(** C8 (as the code has it). Applying an artifact event twice in
    succession leaves the state the first application produced: the
    stored payload is the one the event carries, and nothing in the
    state counts the applications. What grows is the trace: each
    application schedules one more refresh of the rendering surfaces. *)
Theorem artifact_chunk_twice
  (streamingMessageId : string) (data type payload : value) (w : World) :
  get_prop data "type" = Some type ->
  strict_eq_str type "html_chunk" || strict_eq_str type "html_complete" = true ->
  get_prop data "html_content" = Some payload ->
  let w1 := snd (handle_data streamingMessageId data w) in
  let w2 := snd (handle_data streamingMessageId data w1) in
  generatedHtml (react w1) = payload /\
  react w2 = react w1 /\
  trace w1 = trace w ++ [ScheduleRefresh 50] /\
  trace w2 = trace w1 ++ [ScheduleRefresh 50].
Proof.
  intros Hty Hkind Hpay.
  assert (Htext : strict_eq_str type "text_chunk" = false).
  { destruct type; try reflexivity. cbn in *.
    destruct (s =? "text_chunk") eqn:E; [|reflexivity].
    apply String.eqb_eq in E. subst s. discriminate. }
  unfold handle_data. run_monad. rewrite Hty, Htext, Hkind, Hpay.
  fields. repeat split.
  apply state_ext; fields; try reflexivity.
  apply replaceById_idempotent; intros []; reflexivity.
Qed.

End Artifact.

(** The same markup arriving twice while a placeholder is in the
    transcript. *)
Lemma artifact_chunk_twice_witness :
  let data := VObj [("type", VStr "html_chunk"); ("html_content", VStr "<form></form>")] in
  let w := world_of {| messages := [mkMessage "7" assistant (VStr "") "" (VBool false)];
                       input := ""; loading := true; conversationId := VStr "";
                       generatedHtml := VStr ""; showPreview := false;
                       streamingText := VStr ""; isStreaming := true |} in
  let w1 := snd (handle_data "7" data w) in
  let w2 := snd (handle_data "7" data w1) in
  generatedHtml (react w1) = VStr "<form></form>" /\
  react w2 = react w1 /\
  trace w1 = trace w ++ [ScheduleRefresh 50] /\
  trace w2 = trace w1 ++ [ScheduleRefresh 50].
Proof.
  intros data w.
  apply (@artifact_chunk_twice "7" data (VStr "html_chunk")
           (VStr "<form></form>") w); reflexivity.
Defined.

(** C8 as stated fails: after the record
    [data: {'type':'html_chunk','html_content':'<form></form>'}] has
    been applied once, applying it again gives back the very same
    state, so no version read off the state can have increased. *)
Lemma artifact_version_does_not_increase :
  let line := json "data: {'type':'html_chunk','html_content':'<form></form>'}" in
  let w := world_of {| messages := [mkMessage "7" assistant (VStr "") "" (VBool false)];
                       input := ""; loading := true; conversationId := VStr "";
                       generatedHtml := VStr ""; showPreview := false;
                       streamingText := VStr ""; isStreaming := true |} in
  let once := react (snd (process_line "7" line w)) in
  let twice := react (snd (process_line "7" line (snd (process_line "7" line w)))) in
  ~ exists version : State -> Z, (version once < version twice)%Z.
Proof.
  intros line w once twice [version H].
  assert (E : twice = once) by (vm_compute; reflexivity).
  rewrite E in H. lia.
Qed.

(** ** Counting effects *)

Lemma fetch_count_app tr1 tr2 :
  fetch_count (tr1 ++ tr2) = (fetch_count tr1 + fetch_count tr2)%nat.
Proof. unfold fetch_count. rewrite filter_app, length_app. reflexivity. Qed.

Lemma refresh_count_app tr1 tr2 :
  refresh_count (tr1 ++ tr2) = (refresh_count tr1 + refresh_count tr2)%nat.
Proof. unfold refresh_count. rewrite filter_app, length_app. reflexivity. Qed.

Section Effects.

Context {platform : Platform}.

Variable streamingMessageId : string.

Lemma quiet_step_refl w : quiet_step w w.
Proof. exists []. rewrite app_nil_r. auto. Qed.

Lemma quiet_step_trans w1 w2 w3 :
  quiet_step w1 w2 -> quiet_step w2 w3 -> quiet_step w1 w3.
Proof.
  intros (a1 & T1 & F1 & G1) (a2 & T2 & F2 & G2). exists (a1 ++ a2).
  rewrite T2, T1, app_assoc, fetch_count_app, refresh_count_app.
  repeat split; try lia. intros E. rewrite G2 by lia. apply G1. lia.
Qed.

Lemma quiet_step_logged e w :
  is_fetch e = false -> is_refresh e = false -> quiet_step w (logged [e] w).
Proof.
  intros Hf Hr. exists [e]. unfold fetch_count, refresh_count. cbn. rewrite Hf.
  auto.
Qed.

Lemma handle_data_quiet data w :
  quiet_step w (snd (handle_data streamingMessageId data w)).
Proof.
  unfold handle_data. run_monad.
  split_props; cbn [snd];
    first [ apply quiet_step_refl
          | (exists [ScheduleRefresh 50]); fields; repeat split; discriminate
          | (exists [ScheduleRefresh 100]); fields; repeat split; discriminate
          | (exists []); fields; rewrite ?app_nil_r; repeat split ].
Qed.

Lemma process_line_quiet line w :
  quiet_step w (snd (process_line streamingMessageId line w)).
Proof.
  unfold process_line. destruct (startsWith line "data: "); [|apply quiet_step_refl].
  unfold try_catch. destruct (JSON_parse (slice 6 line)) as [data|].
  - pose proof (handle_data_quiet data w) as H.
    destruct (handle_data streamingMessageId data w) as [[flow|e] w']; cbn [snd] in *; auto.
    eapply quiet_step_trans; [exact H|]. apply quiet_step_logged; reflexivity.
  - apply (@quiet_step_logged ConsoleError w); reflexivity.
Qed.

Lemma for_lines_quiet lines : forall w,
  quiet_step w (snd (for_lines streamingMessageId lines w)).
Proof.
  induction lines as [|line rest IH]; intros w; cbn [for_lines]; [apply quiet_step_refl|].
  unfold bind. pose proof (process_line_quiet line w) as H.
  destruct (process_line streamingMessageId line w) as [[[|]|e] w1]; cbn [snd] in *; auto.
  eapply quiet_step_trans; [exact H | apply IH].
Qed.

Lemma read_loop_quiet cs e : forall w,
  quiet_step w (snd (read_loop streamingMessageId cs e w)).
Proof.
  induction cs as [|value rest IH]; intros w; cbn [read_loop].
  - destruct e; apply quiet_step_refl.
  - unfold bind.
    pose proof (for_lines_quiet (split_lf (TextDecoder_decode value)) w) as H.
    destruct (for_lines_normal streamingMessageId (split_lf (TextDecoder_decode value)) w)
      as [w1 Hw1].
    rewrite Hw1 in *. cbn [snd] in H.
    eapply quiet_step_trans; [exact H | apply IH].
Qed.

(** How the read loop completes is decided by how the body ends. *)
Lemma read_loop_completion cs e : forall w,
  fst (read_loop streamingMessageId cs e w)
  = match e with
    | EndOfStream => Normal tt
    | ReadFails => Throw NetworkError
    end.
Proof.
  induction cs as [|value rest IH]; intros w; cbn [read_loop].
  - destruct e; reflexivity.
  - unfold bind.
    destruct (for_lines_normal streamingMessageId (split_lf (TextDecoder_decode value)) w)
      as [w1 ->].
    apply IH.
Qed.

End Effects.

(** ** The blocks of sendMessage *)

Section Blocks.

Context {platform : Platform}.

Lemma new_message_run env r c ui w :
  new_message env r c ui w
  = (Normal (message_at env (tick w) r c ui),
     {| react := react w; tick := S (S (tick w)); trace := trace w |}).
Proof. reflexivity. Qed.

Lemma begin_exchange_run env s w :
  begin_exchange env s w
  = (Normal tt,
     {| react :=
          with_streamingText (VStr "")
            (with_isStreaming true
               (with_loading true
                  (with_input ""
                     (with_messages
                        (fun prev => prev ++ [message_at env (tick w) user (VStr (input s)) VUndefined])
                        (react w)))));
        tick := S (S (tick w));
        trace := trace w |}).
Proof. reflexivity. Qed.

Lemma catch_block_run env error w :
  catch_block env error w
  = (Normal tt,
     {| react :=
          with_messages
            (fun prev => prev ++ [message_at env (tick w) assistant (VStr error_notice) VUndefined])
            (react w);
        tick := S (S (tick w));
        trace := trace w ++ [ConsoleError] |}).
Proof. reflexivity. Qed.

Lemma finally_block_run w :
  finally_block w
  = (Normal tt,
     {| react := with_streamingText (VStr "")
                   (with_isStreaming false (with_loading false (react w)));
        tick := tick w;
        trace := trace w |}).
Proof. reflexivity. Qed.

(** The outer [try]: the request goes out; then either something is
    thrown at once, or the placeholder is appended and the body read. *)
Lemma try_block_run env s w :
  try_block env s w
  = let w1 := logged [Fetch (request_of s)] (logged [ConsoleLog] w) in
    match network env with
    | None => (Throw NetworkError, w1)
    | Some response =>
        if negb (ok response) then (Throw (Error "Failed to send message"), w1)
        else
          match body response with
          | None => (Throw (Error "No response body"), w1)
          | Some reader =>
              read_loop (toString (clock env (tick w))) (chunks reader) (ending reader)
                {| react :=
                     with_messages
                       (fun prev => prev ++ [message_at env (tick w) assistant (VStr "") (VBool false)])
                       (react w);
                   tick := S (S (tick w));
                   trace := trace w1 |}
          end
    end.
Proof.
  unfold try_block, fetch, bind at 1 2, emit. cbn zeta.
  unfold bind at 1. destruct (network env) as [response|]; [|reflexivity].
  unfold ret. destruct (negb (ok response)); [reflexivity|].
  destruct (body response) as [reader|]; reflexivity.
Qed.

Lemma sendMessage_ready env w :
  ready (react w) ->
  sendMessage env w
  = try_finally (try_catch (try_block env (react w)) (catch_block env)) finally_block
      (snd (begin_exchange env (react w) w)).
Proof.
  intros [[Hl Hs] Hin]. unfold sendMessage, bind at 1, get_state.
  rewrite Hin, Hl, Hs. cbn [orb]. unfold bind. rewrite begin_exchange_run. reflexivity.
Qed.

End Blocks.

(** ** A handler called twice *)

Section Stale.

Context {platform : Platform}.

(** A handler that goes past its guard appends the user's message and
    sends the request, whatever the cells hold by now. *)
Lemma handler_past_guard_starts render env w :
  trim_is_empty (input render) || loading render || isStreaming render = false ->
  sendMessage_until_fetch render env w
  = (Normal true,
     logged [Fetch (request_of render)]
       (logged [ConsoleLog] (snd (begin_exchange env render w)))).
Proof.
  intros G. unfold sendMessage_until_fetch. rewrite G.
  unfold bind. rewrite begin_exchange_run. reflexivity.
Qed.

(** So does, in particular, a handler made by an idle render with
    something in the input box, even when the page is busy. *)
Lemma handler_of_ready_render_starts render env w :
  ready render ->
  fst (sendMessage_until_fetch render env w) = Normal true /\
  fetch_count (trace (snd (sendMessage_until_fetch render env w)))
  = S (fetch_count (trace w)) /\
  List.length (messages (react (snd (sendMessage_until_fetch render env w))))
  = S (List.length (messages (react w))).
Proof.
  intros [[Hl Hs] Hin]. rewrite handler_past_guard_starts by (rewrite Hin, Hl, Hs; reflexivity).
  rewrite begin_exchange_run. unfold logged. fields.
  rewrite !fetch_count_app, length_app. cbn. repeat split; lia.
Qed.

End Stale.

Section Suspension.

Context {platform : Platform}.

(** The call is its part up to [await fetch], then, if it went past
    the guard, its part from the moment [fetch] settles. *)
Lemma sendMessage_resumes render env w :
  sendMessage_of_render render env w
  = (started <- sendMessage_until_fetch render env ;;
     if started then sendMessage_after_fetch env else ret tt) w.
Proof.
  destruct (trim_is_empty (input render) || loading render || isStreaming render) eqn:G.
  - unfold sendMessage_of_render, sendMessage_until_fetch, bind. rewrite G. reflexivity.
  - transitivity (sendMessage_after_fetch env
                    (logged [Fetch (request_of render)]
                       (logged [ConsoleLog] (snd (begin_exchange env render w))))).
    + unfold sendMessage_of_render. rewrite G. unfold bind. rewrite begin_exchange_run.
      cbn [snd]. unfold sendMessage_after_fetch, try_finally, try_catch.
      rewrite try_block_run. cbn zeta. unfold try_block_after_fetch.
      unfold bind at 1. destruct (network env) as [response|]; [|reflexivity].
      unfold ret at 1. destruct (negb (ok response)); [reflexivity|].
      destruct (body response) as [reader|]; [|reflexivity].
      unfold bind at 1. rewrite new_message_run. reflexivity.
    + unfold bind. rewrite handler_past_guard_starts by exact G. reflexivity.
Qed.

End Suspension.



(** ** Transport failures *)

Section Failure.

Context {platform : Platform}.

(** C6. When the exchange meets a transport failure ([fetch] rejects,
    the response is not ok or has no body, or reading the body
    rejects), [sendMessage] still completes normally; the transcript
    then ends with an assistant message carrying the error notice, the
    page is idle again, exactly one request was sent, and if no
    refresh of the rendering surfaces was scheduled (no artifact event
    was applied) the stored artifact is the one from before the call. *)
Theorem transport_failure_is_surfaced (env : Env) (w : World) :
  ready (react w) ->
  transport_fails env = true ->
  let r := sendMessage env w in
  fst r = Normal tt /\
  (exists notice,
     last_message (messages (react (snd r))) = Some notice /\
     role notice = assistant /\ content notice = VStr error_notice) /\
  idle (react (snd r)) /\
  fetch_count (trace (snd r)) = S (fetch_count (trace w)) /\
  (refresh_count (trace (snd r)) = refresh_count (trace w) ->
   generatedHtml (react (snd r)) = generatedHtml (react w)).
Proof.
  intros Hready Hfail. cbn zeta. rewrite sendMessage_ready by exact Hready.
  rewrite begin_exchange_run. cbn [snd].
  unfold try_finally, try_catch. rewrite try_block_run. cbn zeta.
  unfold transport_fails in Hfail.
  assert (Hlast : forall ms m, last_message (ms ++ [m]) = Some m).
  { intros ms m. unfold last_message. rewrite map_app. cbn [map]. apply last_last. }
  assert (Hopen : forall e0 w1,
    w1 = logged [Fetch (request_of (react w))]
           (logged [ConsoleLog]
              (snd (begin_exchange env (react w) w))) ->
    let r := match catch_block env e0 w1 with
             | (c, w') => match finally_block w' with
                          | (Normal _, w'') => (c, w'')
                          | (Throw e, w'') => (Throw e, w'')
                          end
             end in
    fst r = Normal tt /\
    (exists notice,
       last_message (messages (react (snd r))) = Some notice /\
       role notice = assistant /\ content notice = VStr error_notice) /\
    idle (react (snd r)) /\
    fetch_count (trace (snd r)) = S (fetch_count (trace w)) /\
    (refresh_count (trace (snd r)) = refresh_count (trace w) ->
     generatedHtml (react (snd r)) = generatedHtml (react w))).
  { intros e0 w1 ->. rewrite begin_exchange_run, catch_block_run, finally_block_run.
    unfold logged. fields. rewrite Hlast.
    repeat split; eauto.
    rewrite !fetch_count_app. cbn. lia. }
  rewrite begin_exchange_run in Hopen.
  destruct (network env) as [response|]; [|apply (Hopen NetworkError); reflexivity].
  destruct (negb (ok response)); [apply (Hopen (Error "Failed to send message")); reflexivity|].
  destruct (body response) as [reader|]; [|apply (Hopen (Error "No response body")); reflexivity].
  cbn [orb] in Hfail. destruct (ending reader) eqn:Hend; [discriminate|].
  match goal with
  | |- context [read_loop ?sid ?cs ?e ?w0] =>
      pose proof (read_loop_completion sid cs e w0) as Hc;
      pose proof (read_loop_quiet sid cs e w0) as Hq;
      destruct (read_loop sid cs e w0) as [c w1]
  end.
  cbn [fst snd] in Hc, Hq. subst c.
  rewrite catch_block_run, finally_block_run.
  destruct Hq as (added & Ht & Hf & Hg). unfold logged in *. fields. rewrite Hlast, Ht.
  repeat split; eauto.
  - rewrite !fetch_count_app, Hf. cbn. lia.
  - rewrite !refresh_count_app. cbn. intros E. apply Hg. lia.
Qed.

End Failure.

(** ** The placeholder during an exchange *)

Lemma placeholder_replace target n c c' f ms :
  placeholder_holds target n c ms ->
  (forall m, id (f m) = id m) ->
  (forall m, role (f m) = role m) ->
  (forall m, content m = c -> content (f m) = c') ->
  placeholder_holds target n c' (replaceById target f ms).
Proof.
  intros (earlier & p & -> & Hn & Hid & Hrole & Hc) Fid Frole Fc.
  exists (replaceById target f earlier), (f p).
  rewrite replaceById_app, replaceById_length. cbn [replaceById map].
  rewrite Hid, String.eqb_refl, Fid, Frole.
  repeat split; auto.
Qed.

Section Placeholder.

Context {platform : Platform}.

Variables (target : string) (n : nat).

(** Every event leaves the placeholder where it is. A line that is not
    a [complete] record lets the loop continue and leaves in the
    placeholder the text it carried, if it is a [text_chunk] record,
    and the text that was there otherwise. *)
Lemma process_line_placeholder line c w :
  placeholder_holds target n c (messages (react w)) ->
  (exists c', placeholder_holds target n c'
                (messages (react (snd (process_line target line w))))) /\
  (is_complete_record line = false ->
   fst (process_line target line w) = Normal Continue /\
   placeholder_holds target n (text_after [line] c)
     (messages (react (snd (process_line target line w))))).
Proof.
  intros H.
  unfold text_after, fold_left, is_complete_record, text_of_line, type_of_line,
    is_record, process_line.
  destruct (startsWith line "data: "); [|cbn; eauto].
  unfold try_catch. destruct (JSON_parse (slice 6 line)) as [data|]; [|cbn; eauto].
  unfold handle_data. run_monad.
  destruct (get_prop data "type") as [ty|] eqn:Hty; [|cbn; eauto].
  assert (Hall : forall k, exists v, get_prop data k = Some v).
  { intros k. destruct data; cbn in *; try congruence; eauto. }
  destruct (Hall "accumulated_text") as [a ->].
  destruct (Hall "html_content") as [h ->].
  destruct (Hall "conversation_id") as [ci ->].
  destruct (Hall "final_text") as [ft ->].
  destruct (Hall "is_ui") as [ui ->].
  destruct (strict_eq_str ty "text_chunk") eqn:Et.
  { assert (Ec : strict_eq_str ty "complete" = false).
    { destruct ty; try reflexivity. cbn in *. apply String.eqb_eq in Et. subst s.
      reflexivity. }
    rewrite Ec. fields.
    assert (P : placeholder_holds target n a
                  (replaceById target (with_content a) (messages (react w)))).
    { eapply placeholder_replace; eauto. }
    eauto. }
  destruct (strict_eq_str ty "html_chunk" || strict_eq_str ty "html_complete").
  { fields.
    assert (P : placeholder_holds target n c
                  (replaceById target (with_is_generated_ui (VBool true))
                     (messages (react w)))).
    { eapply placeholder_replace; eauto. }
    split; [eauto|]. intros _. auto. }
  destruct (strict_eq_str ty "complete").
  - assert (P : placeholder_holds target n ft
                  (replaceById target
                     (fun msg => with_is_generated_ui ui (with_content ft msg))
                     (messages (react w)))).
    { eapply placeholder_replace; eauto. }
    destruct (truthy h); fields; (split; [eauto | discriminate]).
  - fields. eauto.
Qed.

Lemma for_lines_placeholder lines : forall c w,
  placeholder_holds target n c (messages (react w)) ->
  (exists c', placeholder_holds target n c'
                (messages (react (snd (for_lines target lines w))))) /\
  (forallb (fun l => negb (is_complete_record l)) lines = true ->
   placeholder_holds target n (text_after lines c)
     (messages (react (snd (for_lines target lines w))))).
Proof.
  induction lines as [|line rest IH]; intros c w H; cbn [for_lines forallb].
  - cbn. eauto.
  - unfold bind. destruct (process_line_placeholder line w H) as [[c1 H1] H2].
    destruct (process_line target line w) as [[flow|e] w1] eqn:E; cbn [fst snd] in *.
    + split.
      * destruct flow; [apply (IH c1 w1 H1) | cbn; eauto].
      * intros Hall. apply andb_true_iff in Hall as [Hl Hrest].
        apply negb_true_iff in Hl. destruct (H2 Hl) as [Hflow H3].
        injection Hflow as ->.
        change (text_after (line :: rest) c) with (text_after rest (text_after [line] c)).
        apply (IH _ w1 H3). exact Hrest.
    + destruct (process_line_normal target line w) as (f & w' & E').
      rewrite E' in E. discriminate.
Qed.

Lemma read_loop_placeholder cs e : forall c w,
  placeholder_holds target n c (messages (react w)) ->
  (exists c', placeholder_holds target n c'
                (messages (react (snd (read_loop target cs e w))))) /\
  (forallb (fun l => negb (is_complete_record l)) (lines_of cs) = true ->
   placeholder_holds target n (text_after (lines_of cs) c)
     (messages (react (snd (read_loop target cs e w))))).
Proof.
  induction cs as [|value rest IH]; intros c w H; cbn [read_loop].
  - destruct e; cbn; eauto.
  - unfold bind.
    destruct (for_lines_placeholder (split_lf (TextDecoder_decode value)) w H)
      as [[c1 H1] H2].
    destruct (for_lines_normal target (split_lf (TextDecoder_decode value)) w) as [w1 E].
    rewrite E in *. cbn [snd] in *. split.
    + apply (IH c1 w1 H1).
    + unfold lines_of. cbn [flat_map]. rewrite forallb_app. intros Hall.
      apply andb_true_iff in Hall as [Hhere Hrest].
      unfold text_after. rewrite fold_left_app. apply (IH _ w1 (H2 Hhere)). exact Hrest.
Qed.

End Placeholder.

Section Interrupted.

Context {platform : Platform}.

(** C10. When reading the body rejects, the placeholder is still in
    the transcript, followed by the error notice as a message of its
    own: the transcript is the earlier messages and the user's
    message, then the placeholder, then the notice. Unless a [complete]
    record was in the stream, the placeholder holds what the last
    [text_chunk] record carried, and the empty string when there was
    none. *)
Theorem interrupted_exchange_keeps_placeholder
  (env : Env) (w : World) (reader : Reader) :
  ready (react w) ->
  network env = Some {| ok := true; body := Some reader |} ->
  ending reader = ReadFails ->
  let ms := messages (react (snd (sendMessage env w))) in
  exists earlier placeholder notice,
    ms = earlier ++ [placeholder; notice] /\
    List.length earlier = S (List.length (messages (react w))) /\
    id placeholder = toString (clock env (2 + tick w)) /\
    role placeholder = assistant /\
    role notice = assistant /\ content notice = VStr error_notice /\
    (forallb (fun l => negb (is_complete_record l)) (lines_of (chunks reader)) = true ->
     content placeholder = last_text (lines_of (chunks reader))).
Proof.
  intros Hready Hnet Hend. cbn zeta. rewrite sendMessage_ready by exact Hready.
  rewrite begin_exchange_run. cbn [snd].
  unfold try_finally, try_catch. rewrite try_block_run. cbn zeta.
  rewrite Hnet. cbn [ok body negb]. rewrite Hend.
  match goal with
  | |- context [read_loop ?sid ?cs ?e ?w0] =>
      pose proof (read_loop_completion sid cs e w0) as Hc;
      destruct (@read_loop_placeholder platform sid (S (List.length (messages (react w))))
                  cs e (VStr "") w0) as [[c1 H1] H2];
      [|destruct (read_loop sid cs e w0) as [c w1]]
  end.
  { fields. unfold placeholder_holds. eexists _, _. split; [reflexivity|].
    rewrite length_app. cbn. repeat split; auto. lia. }
  cbn [fst snd] in *. subst c.
  rewrite catch_block_run, finally_block_run. fields.
  destruct H1 as (earlier & p & E1 & Hn & Hid & Hrole & Hcont).
  exists earlier, p, (message_at env (tick w1) assistant (VStr error_notice) VUndefined).
  rewrite E1, <- app_assoc. cbn [app]. repeat split; auto.
  intros Hall. destruct (H2 Hall) as (earlier' & p' & E & _ & _ & _ & Hc').
  rewrite E1 in E. apply app_inj_tail in E as [_ <-]. exact Hc'.
Qed.

End Interrupted.

(** ** What each event does *)

Lemma strict_eq_str_true v lit : strict_eq_str v lit = true -> v = VStr lit.
Proof.
  destruct v; cbn; try discriminate. intros E. apply String.eqb_eq in E. congruence.
Qed.

Section Events.

Context {platform : Platform}.

Variable streamingMessageId : string.

(** A value that has a [type] has every property (perhaps undefined). *)
Lemma get_prop_total data k type :
  get_prop data "type" = Some type -> exists v, get_prop data k = Some v.
Proof. destruct data; cbn; try discriminate; eauto. Qed.

Lemma handle_text_chunk data text w :
  get_prop data "type" = Some (VStr "text_chunk") ->
  get_prop data "accumulated_text" = Some text ->
  handle_data streamingMessageId data w
  = (Normal Continue,
     {| react := with_messages (replaceById streamingMessageId (with_content text))
                   (with_streamingText text (react w));
        tick := tick w; trace := trace w |}).
Proof.
  intros Hty Htext. unfold handle_data. run_monad. rewrite Hty, Htext. reflexivity.
Qed.

Lemma handle_html_chunk data type payload w :
  get_prop data "type" = Some type ->
  type = VStr "html_chunk" \/ type = VStr "html_complete" ->
  get_prop data "html_content" = Some payload ->
  handle_data streamingMessageId data w
  = (Normal Continue,
     {| react := with_messages
                   (replaceById streamingMessageId (with_is_generated_ui (VBool true)))
                   (with_showPreview true (with_generatedHtml payload (react w)));
        tick := tick w; trace := trace w ++ [ScheduleRefresh 50] |}).
Proof.
  intros Hty Hkind Hpay. unfold handle_data. run_monad. rewrite Hty, Hpay.
  destruct Hkind; subst type; reflexivity.
Qed.

Lemma handle_complete data cid payload final ui w :
  get_prop data "type" = Some (VStr "complete") ->
  get_prop data "conversation_id" = Some cid ->
  get_prop data "html_content" = Some payload ->
  get_prop data "final_text" = Some final ->
  get_prop data "is_ui" = Some ui ->
  handle_data streamingMessageId data w
  = (Normal Break,
     let finalize := fun msg => with_is_generated_ui ui (with_content final msg) in
     let s := with_streamingText (VStr "") (with_conversationId cid (react w)) in
     if truthy payload then
       {| react := with_messages (replaceById streamingMessageId finalize)
                     (with_showPreview true (with_generatedHtml payload s));
          tick := tick w; trace := trace w ++ [ScheduleRefresh 100] |}
     else
       {| react := with_messages (replaceById streamingMessageId finalize) s;
          tick := tick w; trace := trace w |}).
Proof.
  intros Hty Hcid Hpay Hfin Hui. unfold handle_data. run_monad.
  rewrite Hty, Hcid, Hpay, Hfin, Hui. cbn [strict_eq_str String.eqb Ascii.eqb Bool.eqb orb].
  destruct (truthy payload); reflexivity.
Qed.

(** Only a [complete] event writes the conversation id. *)
Lemma handle_data_keeps_conversationId data w :
  (forall type, get_prop data "type" = Some type -> strict_eq_str type "complete" = false) ->
  conversationId (react (snd (handle_data streamingMessageId data w)))
  = conversationId (react w).
Proof.
  intros Hnot. unfold handle_data. run_monad.
  destruct (get_prop data "type") as [ty|]; [|reflexivity].
  rewrite (Hnot ty eq_refl). split_props; reflexivity.
Qed.

(** A framed record that parses to a value with properties is handed
    to the dispatch as it is. *)
Lemma process_line_record line data type w :
  is_record line = true ->
  JSON_parse (slice 6 line) = Some data ->
  get_prop data "type" = Some type ->
  process_line streamingMessageId line w = handle_data streamingMessageId data w.
Proof.
  intros Hrec Hparse Hty. unfold process_line. unfold is_record in Hrec.
  rewrite Hrec, Hparse. unfold try_catch.
  destruct (@handle_data_normal streamingMessageId data w) as (flow & w' & ->);
    [congruence | reflexivity].
Qed.

End Events.

(** Opening fails at once: the user's message and the notice. *)
Lemma transport_failure_is_surfaced_witness :
  let env := mkEnv (ticking 1700000000000) None in
  let w := world_of (with_input "Create a login form" initial) in
  let r := sendMessage env w in
  fst r = Normal tt /\
  (exists notice,
     last_message (messages (react (snd r))) = Some notice /\
     role notice = assistant /\ content notice = VStr error_notice) /\
  idle (react (snd r)) /\
  fetch_count (trace (snd r)) = S (fetch_count (trace w)) /\
  (refresh_count (trace (snd r)) = refresh_count (trace w) ->
   generatedHtml (react (snd r)) = generatedHtml (react w)).
Proof.
  intros env w.
  apply (@transport_failure_is_surfaced reference_platform env w).
  - repeat split; reflexivity.
  - reflexivity.
Defined.

(** The connection drops after one [text_chunk] record. *)
Lemma interrupted_exchange_keeps_placeholder_witness :
  let reader := {| chunks := [bytes text_chunk_record]; ending := ReadFails |} in
  let env := mkEnv (ticking 1700000000000) (Some {| ok := true; body := Some reader |}) in
  let w := world_of (with_input "Create a login form" initial) in
  let ms := messages (react (snd (sendMessage env w))) in
  exists earlier placeholder notice,
    ms = earlier ++ [placeholder; notice] /\
    List.length earlier = S (List.length (messages (react w))) /\
    id placeholder = toString (clock env (2 + tick w)) /\
    role placeholder = assistant /\
    role notice = assistant /\ content notice = VStr error_notice /\
    (forallb (fun l => negb (is_complete_record l)) (lines_of (chunks reader)) = true ->
     content placeholder = last_text (lines_of (chunks reader))).
Proof.
  intros reader env w.
  apply (@interrupted_exchange_keeps_placeholder reference_platform env w reader).
  - repeat split; reflexivity.
  - reflexivity.
  - reflexivity.
Defined.

(** ** The conversation id *)

Section Conversation.

Context {platform : Platform}.

(** C3 (as the code has it). In whatever state the page is, a
    [complete] event writes the conversation id it carries into the
    session, whatever was there before, and no other event writes it;
    and every call that goes past the guard sends one request, which
    carries the session's conversation id of that moment (left out
    when it is empty). *)
Theorem conversationId_follows_complete
  (streamingMessageId : string) (data cid : value) :
  get_prop data "type" = Some (VStr "complete") ->
  get_prop data "conversation_id" = Some cid ->
  (forall w,
     conversationId (react (snd (handle_data streamingMessageId data w))) = cid) /\
  (forall w other,
     (forall type, get_prop other "type" = Some type ->
                   strict_eq_str type "complete" = false) ->
     conversationId (react (snd (handle_data streamingMessageId other w)))
     = conversationId (react w)) /\
  (forall env w,
     ready (react w) ->
     exists later,
       trace (snd (sendMessage env w))
       = trace w ++
         [ConsoleLog;
          Fetch {| message := input (react w);
                   conversation_id := if truthy (conversationId (react w))
                                      then conversationId (react w) else VUndefined;
                   history := messages (react w) |}] ++ later /\
       fetch_count later = 0%nat).
Proof.
  intros Hty Hcid. split; [|split].
  - intros w.
    destruct (get_prop_total data "html_content" Hty) as [h Hh].
    destruct (get_prop_total data "final_text" Hty) as [f Hf].
    destruct (get_prop_total data "is_ui" Hty) as [u Hu].
    rewrite (handle_complete streamingMessageId data w Hty Hcid Hh Hf Hu).
    cbn zeta. destruct (truthy h); reflexivity.
  - intros w other Hother. apply handle_data_keeps_conversationId. exact Hother.
  - intros env w Hready. rewrite sendMessage_ready by exact Hready.
    rewrite begin_exchange_run. cbn [snd].
    unfold try_finally, try_catch. rewrite try_block_run. cbn zeta.
    assert (Hopen : forall e0 w1,
      w1 = logged [Fetch (request_of (react w))]
             (logged [ConsoleLog] (snd (begin_exchange env (react w) w))) ->
      exists later,
        trace (snd (match catch_block env e0 w1 with
                    | (c, w') => match finally_block w' with
                                 | (Normal _, w'') => (c, w'')
                                 | (Throw e, w'') => (Throw e, w'')
                                 end
                    end))
        = trace w ++ [ConsoleLog; Fetch (request_of (react w))] ++ later /\
        fetch_count later = 0%nat).
    { intros e0 w1 ->. rewrite begin_exchange_run, catch_block_run, finally_block_run.
      unfold logged. fields. exists [ConsoleError].
      rewrite <- !app_assoc. split; reflexivity. }
    rewrite begin_exchange_run in Hopen. unfold request_of in *. fields.
    destruct (network env) as [response|]; [|apply (Hopen NetworkError); reflexivity].
    destruct (negb (ok response));
      [apply (Hopen (Error "Failed to send message")); reflexivity|].
    destruct (body response) as [reader|];
      [|apply (Hopen (Error "No response body")); reflexivity].
    match goal with
    | |- context [read_loop ?sid ?cs ?e ?w0] =>
        pose proof (read_loop_quiet sid cs e w0) as Hq;
        destruct (read_loop sid cs e w0) as [c w1]
    end.
    cbn [snd] in Hq. destruct Hq as (added & Ht & Hf & _). unfold logged in Ht. fields.
    destruct c as [[]|e0].
    + rewrite finally_block_run. fields. rewrite Ht. exists added.
      rewrite <- !app_assoc. split; [reflexivity | exact Hf].
    + rewrite catch_block_run, finally_block_run. fields. rewrite Ht.
      exists (added ++ [ConsoleError]). rewrite <- !app_assoc. split; [reflexivity|].
      rewrite fetch_count_app, Hf. reflexivity.
Qed.

End Conversation.

(** A second answer names another conversation. *)
Lemma conversationId_follows_complete_witness :
  let data := VObj [("type", VStr "complete"); ("conversation_id", VStr "c2");
                    ("final_text", VStr "Done"); ("is_ui", VBool false)] in
  (forall w, conversationId (react (snd (handle_data "7" data w))) = VStr "c2") /\
  (forall w other,
     (forall type, get_prop other "type" = Some type ->
                   strict_eq_str type "complete" = false) ->
     conversationId (react (snd (handle_data "7" other w)))
     = conversationId (react w)) /\
  (forall env w,
     ready (react w) ->
     exists later,
       trace (snd (@sendMessage reference_platform env w))
       = trace w ++
         [ConsoleLog;
          Fetch {| message := input (react w);
                   conversation_id := if truthy (conversationId (react w))
                                      then conversationId (react w) else VUndefined;
                   history := messages (react w) |}] ++ later /\
       fetch_count later = 0%nat).
Proof.
  intros data.
  apply (@conversationId_follows_complete reference_platform "7" data (VStr "c2"));
    reflexivity.
Defined.

(** C3 as stated fails: the first exchange is answered with
    [conversation_id] "c1", which the session keeps and sends along
    with the second message; the second exchange is answered with
    "c2", and the session's conversation id is then "c2". *)
Lemma conversationId_is_overwritten :
  let answer cid :=
    bytes (framed ("{'type':'complete','conversation_id':'" ++ cid
                   ++ "','final_text':'Done','is_ui':false}")%string) in
  let first :=
    send (mkEnv (ticking 1700000000000) (streaming [answer "c1"] EndOfStream))
      "hello" initial in
  let second :=
    send (mkEnv (ticking 1700000060000) (streaming [answer "c2"] EndOfStream))
      "again" (react first) in
  conversationId (react first) = VStr "c1" /\
  In (Fetch {| message := "again"; conversation_id := VStr "c1";
               history := messages (react first) |}) (trace second) /\
  conversationId (react second) = VStr "c2" /\
  conversationId (react second) <> conversationId (react first).
Proof.
  vm_compute. repeat split; auto. discriminate.
Qed.

(** ** The login form *)

Ltac run_scenario :=
  cbv -[replaceById toString Calendar.toISOString In
        id role content timestamp is_generated_ui with_content with_is_generated_ui].

(** Replace by id in a transcript of known length, once it is known
    whether the ids [a] and [b] are equal. *)
Ltac replace_by_cases a b :=
  let E := fresh "E" in
  destruct (String.eqb a b) eqn:E;
  unfold replaceById;
  repeat (progress (cbn [map id role content is_generated_ui
                         with_content with_is_generated_ui];
                    rewrite ?E, ?String.eqb_refl)).

(** C7. The request [{message: "Create a login form"}] answered by one
    [text_chunk], one [html_chunk] and the [complete] record of the
    specification leaves a transcript of exactly two messages, the
    user's and one assistant message that is marked as a generated
    artifact and reads "Sure, here is a form", and the stored artifact
    is [<form></form>]; whatever the clock shows, and whether the
    records arrive one per chunk or all in one chunk. *)
Theorem login_form_scenario (clk : nat -> Z) :
  login_form_outcome
    (send (mkEnv clk (streaming [bytes text_chunk_record; bytes html_chunk_record;
                                 bytes complete_record] EndOfStream))
       "Create a login form" initial) /\
  login_form_outcome
    (send (mkEnv clk (streaming [bytes (text_chunk_record ++ html_chunk_record
                                        ++ complete_record)%string] EndOfStream))
       "Create a login form" initial).
Proof.
  unfold login_form_outcome. split.
  - run_scenario. split; [cbn; auto|].
    replace_by_cases (toString (clk 0%nat)) (toString (clk 2%nat));
      eexists _, _; repeat split.
  - run_scenario. split; [cbn; auto|].
    replace_by_cases (toString (clk 0%nat)) (toString (clk 2%nat));
      eexists _, _; repeat split.
Qed.

(** ** After the complete event *)

(** Within one chunk the [break] does its work: once a line has been
    handled as a [complete] record, the lines after it in that chunk
    are not looked at. *)
Lemma for_lines_stops_at_complete {platform : Platform}
  streamingMessageId line rest w w' :
  process_line streamingMessageId line w = (Normal Break, w') ->
  for_lines streamingMessageId (line :: rest) w = (Normal tt, w').
Proof. intros H. cbn [for_lines]. unfold bind. rewrite H. reflexivity. Qed.

(** The next chunk is read all the same, whatever the lines of this
    one did. *)
Lemma read_loop_next_chunk {platform : Platform} streamingMessageId value rest e w :
  read_loop streamingMessageId (value :: rest) e w
  = read_loop streamingMessageId rest e
      (snd (for_lines streamingMessageId (split_lf (TextDecoder_decode value)) w)).
Proof.
  cbn [read_loop]. unfold bind.
  destruct (for_lines_normal streamingMessageId (split_lf (TextDecoder_decode value)) w)
    as [w1 ->].
  reflexivity.
Qed.

(** C2 fails on the code. The [break] that follows a [complete] event
    leaves the loop over the lines of the current chunk only: records
    that arrive in a later chunk are applied. Here a [complete] record
    is followed by a [text_chunk] and an [html_chunk] record; when the
    three come in one chunk the answer stays "Done", when they come in
    three chunks the late text and the late markup overwrite it. *)
Theorem events_after_complete_are_applied :
  let done := framed "{'type':'complete','conversation_id':'c1','final_text':'Done','is_ui':false}" in
  let late_text := framed "{'type':'text_chunk','accumulated_text':'late','conversation_id':'c1'}" in
  let late_html := framed "{'type':'html_chunk','html_content':'<p>late</p>'}" in
  let env cs := mkEnv (ticking 1700000000000) (streaming cs EndOfStream) in
  let together := react (send (env [bytes (done ++ late_text ++ late_html)%string])
                           "hello" initial) in
  let apart := react (send (env [bytes done; bytes late_text; bytes late_html])
                        "hello" initial) in
  (map content (messages together) = [VStr "hello"; VStr "Done"] /\
   map is_generated_ui (messages together) = [VUndefined; VBool false] /\
   generatedHtml together = VStr "") /\
  (map content (messages apart) = [VStr "hello"; VStr "late"] /\
   map is_generated_ui (messages apart) = [VUndefined; VBool true] /\
   generatedHtml apart = VStr "<p>late</p>").
Proof. vm_compute. repeat split. Qed.

(** ** Message ids *)

(** Different clock readings print differently, so two messages share
    an id exactly when they were made at the same reading. *)
Lemma toString_inj a b : toString a = toString b -> a = b.
Proof.
  unfold toString. intros H. apply DecimalZ.to_int_inj.
  pose proof (NilEmpty.isi (Z.to_int a)) as Ha.
  pose proof (NilEmpty.isi (Z.to_int b)) as Hb.
  congruence.
Qed.

Lemma message_ids_differ_iff {platform : Platform} env n m r c ui r' c' ui' :
  id (message_at env n r c ui) = id (message_at env m r' c' ui')
  <-> clock env n = clock env m.
Proof.
  cbn [id message_at]. split; [apply toString_inj | congruence].
Qed.

(** C4 fails on the code. An id is the clock reading, in milliseconds,
    at the moment the message is made. When reading the body rejects
    in the millisecond in which the placeholder was made, the
    placeholder and the error notice get the same id; and were the
    user's message and the placeholder made in one millisecond, the
    replacement by id would rewrite both. *)
Theorem message_ids_can_collide :
  let t0 := 1700000000000%Z in
  let dropped := react (send (mkEnv (coarse t0 (t0 + 120)) (streaming [] ReadFails))
                          "hello" initial) in
  let same := react (send (mkEnv (frozen t0)
                                 (streaming [bytes text_chunk_record] EndOfStream))
                       "hello" initial) in
  (map id (messages dropped) = ["1700000000000"; "1700000000120"; "1700000000120"] /\
   ~ NoDup (map id (messages dropped))) /\
  (map id (messages same) = ["1700000000000"; "1700000000000"] /\
   map role (messages same) = [user; assistant] /\
   map content (messages same)
   = [VStr "Sure, here is a form"; VStr "Sure, here is a form"]).
Proof.
  vm_compute. repeat split.
  intros H. inversion H as [|x l Hin Hnd]; subst. inversion Hnd as [|y l' Hin' Hnd']; subst.
  apply Hin'. left. reflexivity.
Qed.

(** ** Chunk boundaries *)

(** C1 as stated fails: there is no buffer between chunks. The
    response to the login form request, cut inside its [html_chunk]
    record and inside its [complete] record, is the same bytes; yet
    each piece of a cut record is taken for a line of its own, neither
    parses, and the exchange ends without the artifact and with a
    different transcript. *)
Lemma cut_records_are_lost :
  let env cs := mkEnv (ticking 1700000000000) (streaming cs EndOfStream) in
  let whole := react (send (env [bytes login_form_response])
                        "Create a login form" initial) in
  let cut := react (send (env (map bytes login_form_pieces))
                      "Create a login form" initial) in
  List.concat (map bytes login_form_pieces) = bytes login_form_response /\
  generatedHtml whole = VStr "<form></form>" /\
  generatedHtml cut = VStr "" /\
  map is_generated_ui (messages whole) = [VUndefined; VBool true] /\
  map is_generated_ui (messages cut) = [VUndefined; VBool false] /\
  messages cut <> messages whole /\
  generatedHtml cut <> generatedHtml whole.
Proof.
  vm_compute. repeat split; discriminate.
Qed.

(** *** Lines and line-aligned chunks *)

Lemma split_lf_nonempty s : split_lf s <> [].
Proof.
  destruct s as [|c s]; cbn; [discriminate|].
  destruct (Ascii.eqb c "010"); [discriminate|].
  destruct (split_lf s); discriminate.
Qed.

(** Cutting a text just after a line feed cuts its lines in two. *)
Lemma split_lf_app_lf s t :
  split_lf (s ++ LF ++ t)%string = split_lf s ++ split_lf t.
Proof.
  induction s as [|c s IH]; [reflexivity|].
  cbn [String.append split_lf]. destruct (Ascii.eqb c "010").
  - cbn [app]. f_equal. exact IH.
  - rewrite IH. pose proof (split_lf_nonempty s) as Hne.
    destruct (split_lf s) as [|l ls]; [congruence | reflexivity].
Qed.

Lemma line_aligned_inv t :
  line_aligned t = true -> t = "" \/ exists s, t = (s ++ LF)%string.
Proof.
  induction t as [|c t IH]; [auto|].
  destruct t as [|c' t'].
  - cbn. intros E. apply Ascii.eqb_eq in E. subst c. right. exists "". reflexivity.
  - intros H. change (line_aligned (String c' t') = true) in H.
    destruct (IH H) as [E | [s E]]; [discriminate|].
    right. exists (String c s). cbn [String.append]. rewrite <- E. reflexivity.
Qed.

Lemma string_app_assoc (a b c : string) : ((a ++ b) ++ c = a ++ b ++ c)%string.
Proof. induction a as [|x a IH]; cbn; [reflexivity | rewrite IH; reflexivity]. Qed.

Lemma string_app_nil_r (a : string) : (a ++ "" = a)%string.
Proof. induction a as [|x a IH]; cbn; [reflexivity | rewrite IH; reflexivity]. Qed.

(** The framed records of two texts, the first of which is
    line-aligned, are the framed records of the text they make. *)
Lemma records_app_aligned t1 t2 :
  line_aligned t1 = true ->
  records (split_lf (t1 ++ t2)%string) = records (split_lf t1) ++ records (split_lf t2).
Proof.
  intros H. destruct (line_aligned_inv t1 H) as [-> | [s ->]]; [reflexivity|].
  rewrite string_app_assoc, split_lf_app_lf.
  rewrite <- (string_app_nil_r (s ++ LF)), string_app_assoc, split_lf_app_lf.
  unfold records. rewrite !filter_app. cbn [split_lf filter is_record startsWith prefix].
  rewrite app_nil_r. reflexivity.
Qed.

Section Alignment.

Context {platform : Platform}.

Lemma records_lines_of cs :
  forallb (fun value => line_aligned (TextDecoder_decode value)) cs = true ->
  records (lines_of cs) = records (split_lf (decoded_text cs)).
Proof.
  induction cs as [|value rest IH]; [reflexivity|].
  cbn [forallb]. intros H. apply andb_true_iff in H as [Hhere Hrest].
  unfold lines_of, decoded_text in *. cbn [flat_map fold_right].
  rewrite records_app_aligned by exact Hhere.
  unfold records in *. rewrite filter_app, (IH Hrest). reflexivity.
Qed.

Variable streamingMessageId : string.

(** Only framed records matter to the loop over the lines. *)
Lemma for_lines_records lines : forall w,
  for_lines streamingMessageId lines w
  = for_lines streamingMessageId (records lines) w.
Proof.
  induction lines as [|line rest IH]; intros w; [reflexivity|].
  unfold records. cbn [filter]. destruct (is_record line) eqn:E.
  - cbn [for_lines]. unfold bind.
    destruct (process_line streamingMessageId line w) as [[[|]|e] w1]; auto.
  - cbn [for_lines]. unfold bind. rewrite process_line_unframed by exact E. apply IH.
Qed.

Lemma for_lines_unframed lines w :
  forallb (fun l => negb (is_record l)) lines = true ->
  for_lines streamingMessageId lines w = (Normal tt, w).
Proof.
  intros H. rewrite for_lines_records.
  replace (records lines) with (@nil string); [reflexivity|].
  induction lines as [|line rest IH]; [reflexivity|].
  cbn [forallb] in H. apply andb_true_iff in H as [Hl Hrest].
  apply negb_true_iff in Hl. unfold records in *. cbn [filter]. rewrite Hl. auto.
Qed.

(** The loop is left early only by a [complete] record. *)
Lemma process_line_break line w w' :
  process_line streamingMessageId line w = (Normal Break, w') ->
  is_complete_record line = true.
Proof.
  unfold process_line, is_complete_record, type_of_line, is_record.
  destruct (startsWith line "data: "); [|discriminate].
  unfold try_catch. destruct (JSON_parse (slice 6 line)) as [data|]; [|discriminate].
  unfold handle_data. run_monad.
  destruct (get_prop data "type") as [ty|]; [|discriminate].
  destruct (strict_eq_str ty "complete") eqn:Ec; [reflexivity|].
  split_props; discriminate.
Qed.

Lemma is_complete_record_framed line :
  is_complete_record line = true -> is_record line = true.
Proof.
  unfold is_complete_record, type_of_line. destruct (is_record line); [auto | discriminate].
Qed.

Lemma complete_is_last_unframed lines :
  forallb (fun l => negb (is_record l)) lines = true -> complete_is_last lines = true.
Proof.
  induction lines as [|line rest IH]; [reflexivity|].
  cbn [forallb complete_is_last]. intros H. apply andb_true_iff in H as [Hl Hrest].
  destruct (is_complete_record line) eqn:E; [|auto].
  apply is_complete_record_framed in E. rewrite E in Hl. discriminate.
Qed.

Lemma complete_is_last_app l1 : forall l2,
  complete_is_last (l1 ++ l2) = true -> complete_is_last l2 = true.
Proof.
  induction l1 as [|line rest IH]; intros l2 H; [exact H|].
  cbn [app complete_is_last] in H. destruct (is_complete_record line); [|auto].
  rewrite forallb_app in H. apply andb_true_iff in H as [_ H].
  apply complete_is_last_unframed. exact H.
Qed.

Lemma complete_is_last_records lines :
  complete_is_last (records lines) = complete_is_last lines.
Proof.
  induction lines as [|line rest IH]; [reflexivity|].
  unfold records in *. cbn [filter complete_is_last].
  destruct (is_record line) eqn:E; cbn [complete_is_last].
  - destruct (is_complete_record line); [|exact IH].
    clear IH. induction rest as [|l rest IH]; [reflexivity|].
    cbn [filter forallb]. destruct (is_record l) eqn:El; cbn [forallb negb andb].
    + rewrite El. reflexivity.
    + exact IH.
  - destruct (is_complete_record line) eqn:Ec; [|exact IH].
    apply is_complete_record_framed in Ec. congruence.
Qed.

(** When nothing follows the [complete] record, leaving the loop early
    skips nothing: the loop over two lists of lines is the loop over
    the first, then the loop over the second. *)
Lemma for_lines_app l1 : forall l2 w,
  complete_is_last (l1 ++ l2) = true ->
  for_lines streamingMessageId (l1 ++ l2) w
  = (for_lines streamingMessageId l1 ;; for_lines streamingMessageId l2) w.
Proof.
  induction l1 as [|line rest IH]; intros l2 w H.
  - cbn [app for_lines]. unfold bind, ret. reflexivity.
  - cbn [app for_lines complete_is_last] in *. unfold bind at 1 2 3.
    destruct (process_line streamingMessageId line w) as [[[|]|e] w1] eqn:E.
    + destruct (is_complete_record line).
      * rewrite for_lines_unframed by exact H.
        rewrite forallb_app in H. apply andb_true_iff in H as [H1 H2].
        unfold bind. rewrite !for_lines_unframed by assumption. reflexivity.
      * rewrite IH by exact H. reflexivity.
    + rewrite (process_line_break _ _ E) in H.
      rewrite forallb_app in H. apply andb_true_iff in H as [H1 H2].
      unfold ret. rewrite for_lines_unframed by exact H2. reflexivity.
    + reflexivity.
Qed.

(** Then reading the chunks is one loop over all their lines. *)
Lemma read_loop_lines cs e : forall w,
  complete_is_last (lines_of cs) = true ->
  read_loop streamingMessageId cs e w
  = (for_lines streamingMessageId (lines_of cs) ;; read_loop streamingMessageId [] e) w.
Proof.
  induction cs as [|value rest IH]; intros w H.
  - cbn [lines_of flat_map for_lines]. unfold bind, ret. reflexivity.
  - unfold lines_of in *. cbn [flat_map read_loop] in *.
    unfold bind at 1. unfold bind at 1.
    rewrite for_lines_app by exact H. unfold bind at 1.
    destruct (for_lines streamingMessageId (split_lf (TextDecoder_decode value)) w)
      as [[[]|e0] w1]; [|reflexivity].
    rewrite IH by (eapply complete_is_last_app; exact H).
    reflexivity.
Qed.

End Alignment.

Section Invariance.

Context {platform : Platform}.

(** Line-aligned chunks of a text in which nothing follows the
    [complete] record are read as the framed records of the text. *)
Lemma read_loop_canonical streamingMessageId cs e w :
  forallb (fun value => line_aligned (TextDecoder_decode value)) cs = true ->
  complete_is_last (split_lf (decoded_text cs)) = true ->
  read_loop streamingMessageId cs e w
  = (for_lines streamingMessageId (records (split_lf (decoded_text cs))) ;;
     read_loop streamingMessageId [] e) w.
Proof.
  intros Hal Hlast.
  rewrite read_loop_lines.
  - unfold bind. rewrite for_lines_records, records_lines_of by exact Hal. reflexivity.
  - rewrite <- complete_is_last_records, records_lines_of, complete_is_last_records
      by exact Hal.
    exact Hlast.
Qed.

(** Two runs of chunks that are line-aligned once decoded and decode,
    chunk by chunk, to the same text in which nothing follows the
    [complete] record, end in the same world. *)
Lemma aligned_texts_agree
  (clk : nat -> Z) (e : Ending) (cs1 cs2 : list (list byte)) (w : World) :
  forallb (fun value => line_aligned (TextDecoder_decode value)) cs1 = true ->
  forallb (fun value => line_aligned (TextDecoder_decode value)) cs2 = true ->
  decoded_text cs1 = decoded_text cs2 ->
  complete_is_last (split_lf (decoded_text cs1)) = true ->
  sendMessage (mkEnv clk (Some {| ok := true;
                                  body := Some {| chunks := cs1; ending := e |} |})) w
  = sendMessage (mkEnv clk (Some {| ok := true;
                                    body := Some {| chunks := cs2; ending := e |} |})) w.
Proof.
  intros Hal1 Hal2 Htext Hlast.
  unfold sendMessage, bind at 1 3, get_state.
  destruct (trim_is_empty (input (react w)) || loading (react w) || isStreaming (react w));
    [reflexivity|].
  unfold bind. rewrite !begin_exchange_run.
  unfold try_finally, try_catch. rewrite !try_block_run.
  cbn [network ok body negb chunks ending clock]. cbv zeta.
  rewrite (read_loop_canonical _ cs1 e _ Hal1 Hlast).
  rewrite Htext in Hlast. rewrite (read_loop_canonical _ cs2 e _ Hal2 Hlast).
  rewrite Htext. reflexivity.
Qed.

(** C1 (as the code has it). Take the bytes of a response and two ways
    of cutting them into chunks such that, in each, every chunk decoded
    on its own is empty or ends with a line feed, and the chunks
    decoded one by one and put together are the text the whole
    response decodes to; and let no framed record follow the
    [complete] record in that text. The two exchanges end in the same
    world: the same state (transcript, artifact and all the rest) and
    the same effects. Chunks are not buffered: each is decoded, split
    into lines and parsed when it arrives, so the statement does not
    extend to a cut inside a line, nor to a cut that changes what the
    decoder makes of the bytes. *)
Theorem line_aligned_chunks_agree
  (clk : nat -> Z) (e : Ending) (cs1 cs2 : list (list byte)) (w : World) :
  List.concat cs1 = List.concat cs2 ->
  decoded_text cs1 = TextDecoder_decode (List.concat cs1) ->
  decoded_text cs2 = TextDecoder_decode (List.concat cs2) ->
  forallb (fun value => line_aligned (TextDecoder_decode value)) cs1 = true ->
  forallb (fun value => line_aligned (TextDecoder_decode value)) cs2 = true ->
  complete_is_last (split_lf (TextDecoder_decode (List.concat cs1))) = true ->
  sendMessage (mkEnv clk (Some {| ok := true;
                                  body := Some {| chunks := cs1; ending := e |} |})) w
  = sendMessage (mkEnv clk (Some {| ok := true;
                                    body := Some {| chunks := cs2; ending := e |} |})) w.
Proof.
  intros Hbytes Hd1 Hd2 Hal1 Hal2 Hlast.
  apply aligned_texts_agree; try assumption.
  - rewrite Hd1, Hd2, Hbytes. reflexivity.
  - rewrite Hd1. exact Hlast.
Qed.

End Invariance.

(** The login form response in one chunk, and one record per chunk. *)
Lemma line_aligned_chunks_agree_witness :
  let cs1 := [bytes login_form_response] in
  let cs2 := [bytes text_chunk_record; bytes html_chunk_record; bytes complete_record] in
  let w := world_of (with_input "Create a login form" initial) in
  sendMessage (mkEnv (ticking 1700000000000)
                 (Some {| ok := true;
                          body := Some {| chunks := cs1; ending := EndOfStream |} |})) w
  = sendMessage (mkEnv (ticking 1700000000000)
                   (Some {| ok := true;
                            body := Some {| chunks := cs2; ending := EndOfStream |} |})) w.
Proof.
  intros cs1 cs2 w.
  apply (@line_aligned_chunks_agree reference_platform (ticking 1700000000000)
           EndOfStream cs1 cs2 w); vm_compute; reflexivity.
Defined.

(** * More of the page *)

(** ** The course of an exchange *)

Section Outcome.

Context {platform : Platform}.

Lemma sendMessage_outcome env w :
  ready (react w) ->
  sendMessage env w = (Normal tt, exchange_outcome env w).
Proof.
  intros Hready. rewrite sendMessage_ready by exact Hready.
  unfold exchange_outcome, settled, caught, reading, requested, placeholder_id.
  rewrite begin_exchange_run. cbn [snd].
  unfold try_finally, try_catch. rewrite try_block_run. cbn zeta.
  destruct (network env) as [response|]; [|reflexivity].
  destruct (negb (ok response)); [reflexivity|].
  destruct (body response) as [reader|]; [|reflexivity].
  match goal with
  | |- ?L = ?R =>
      match L with
      | context [read_loop ?s1 ?c1 ?e1 ?w1] =>
          match R with
          | context [read_loop ?s2 ?c2 ?e2 ?w2] =>
              change (read_loop s2 c2 e2 w2) with (read_loop s1 c1 e1 w1);
              pose proof (read_loop_completion s1 c1 e1 w1) as Hc;
              destruct (read_loop s1 c1 e1 w1) as [c w']
          end
      end
  end.
  cbn [fst snd] in *. subst c. destruct (ending reader); reflexivity.
Qed.

End Outcome.

(** ** The shape of the transcript *)

Lemma same_message_but_refl target m : same_message_but target m m.
Proof. unfold same_message_but. auto. Qed.

Lemma same_messages_refl target ms : Forall2 (same_message_but target) ms ms.
Proof. induction ms; constructor; auto using same_message_but_refl. Qed.

Lemma same_messages_trans target ms1 : forall ms2 ms3,
  Forall2 (same_message_but target) ms1 ms2 ->
  Forall2 (same_message_but target) ms2 ms3 ->
  Forall2 (same_message_but target) ms1 ms3.
Proof.
  induction ms1 as [|m ms1 IH]; intros ms2 ms3 H12 H23;
    inversion H12; subst; inversion H23; subst; constructor.
  - match goal with
    | A : same_message_but _ m ?y, B : same_message_but _ ?y ?z |- _ =>
        destruct A as (A1 & A2 & A3 & A4); destruct B as (B1 & B2 & B3 & B4)
    end.
    unfold same_message_but. repeat split; try congruence.
    intros Hne. rewrite B4 by congruence. auto.
  - eapply IH; eassumption.
Qed.

Lemma replaceById_same target f ms :
  (forall m, id (f m) = id m /\ role (f m) = role m /\ timestamp (f m) = timestamp m) ->
  Forall2 (same_message_but target) ms (replaceById target f ms).
Proof.
  intros Hf. induction ms as [|m ms IH]; cbn [replaceById map]; constructor; [|exact IH].
  destruct (id m =? target) eqn:E.
  - destruct (Hf m) as (H1 & H2 & H3). unfold same_message_but. repeat split; auto.
    apply String.eqb_eq in E. congruence.
  - apply same_message_but_refl.
Qed.

Lemma same_messages_ids target ms ms' :
  Forall2 (same_message_but target) ms ms' -> map id ms' = map id ms.
Proof.
  induction 1 as [|m m' ms ms' (H & _) _ IH]; cbn [map]; [reflexivity | congruence].
Qed.

Lemma same_messages_length target ms ms' :
  Forall2 (same_message_but target) ms ms' -> List.length ms' = List.length ms.
Proof. intros H. symmetry. eapply Forall2_length; eassumption. Qed.

Section Shape.

Context {platform : Platform}.

Variable streamingMessageId : string.

Lemma handle_data_shape data w :
  Forall2 (same_message_but streamingMessageId) (messages (react w))
    (messages (react (snd (handle_data streamingMessageId data w)))).
Proof.
  unfold handle_data. run_monad.
  split_props; fields;
    first [ apply same_messages_refl
          | apply replaceById_same; intros []; repeat split ].
Qed.

Lemma process_line_shape line w :
  Forall2 (same_message_but streamingMessageId) (messages (react w))
    (messages (react (snd (process_line streamingMessageId line w)))).
Proof.
  unfold process_line. destruct (startsWith line "data: "); [|apply same_messages_refl].
  unfold try_catch. destruct (JSON_parse (slice 6 line)) as [data|];
    [|apply same_messages_refl].
  pose proof (handle_data_shape data w) as H.
  destruct (handle_data streamingMessageId data w) as [[flow|e] w']; exact H.
Qed.

Lemma for_lines_shape lines : forall w,
  Forall2 (same_message_but streamingMessageId) (messages (react w))
    (messages (react (snd (for_lines streamingMessageId lines w)))).
Proof.
  induction lines as [|line rest IH]; intros w; cbn [for_lines];
    [apply same_messages_refl|].
  unfold bind. pose proof (process_line_shape line w) as H.
  destruct (process_line streamingMessageId line w) as [[[|]|e] w1]; cbn [snd] in *; auto.
  eapply same_messages_trans; [exact H | apply IH].
Qed.

Lemma read_loop_shape cs e : forall w,
  Forall2 (same_message_but streamingMessageId) (messages (react w))
    (messages (react (snd (read_loop streamingMessageId cs e w)))).
Proof.
  induction cs as [|value rest IH]; intros w; cbn [read_loop].
  - destruct e; apply same_messages_refl.
  - unfold bind.
    pose proof (for_lines_shape (split_lf (TextDecoder_decode value)) w) as H.
    destruct (for_lines_normal streamingMessageId (split_lf (TextDecoder_decode value)) w)
      as [w1 Hw1].
    rewrite Hw1 in *. cbn [snd] in H.
    eapply same_messages_trans; [exact H | apply IH].
Qed.

(** X1. Whatever a stream carries, it leaves the transcript in shape:
    the same ids, roles and timestamps in the same order (so as many
    messages), and every message whose id is not the placeholder's is
    at its place exactly as it was. *)
Theorem stream_keeps_transcript_shape cs e w :
  let before := messages (react w) in
  let after := messages (react (snd (read_loop streamingMessageId cs e w))) in
  map id after = map id before /\
  map role after = map role before /\
  map timestamp after = map timestamp before /\
  forall i m, nth_error before i = Some m -> id m <> streamingMessageId ->
              nth_error after i = Some m.
Proof.
  cbn zeta. pose proof (read_loop_shape cs e w) as H.
  induction H as [|m m' ms ms' (H1 & H2 & H3 & H4) _ IH]; cbn [map].
  - repeat split. intros [|i] m; discriminate.
  - destruct IH as (I1 & I2 & I3 & I4). repeat split; try congruence.
    intros [|i] m0; cbn [nth_error].
    + intros [= <-] Hne. rewrite H4 by exact Hne. reflexivity.
    + apply I4.
Qed.

End Shape.

(** ** Where an exchange leaves the page *)

Section Settling.

Context {platform : Platform}.

Lemma requested_run env w :
  requested env w
  = {| react :=
         with_streamingText (VStr "")
           (with_isStreaming true
              (with_loading true
                 (with_input ""
                    (with_messages
                       (fun prev => prev ++ [message_at env (tick w) user
                                               (VStr (input (react w))) VUndefined])
                       (react w)))));
       tick := 2 + tick w;
       trace := (trace w ++ [ConsoleLog]) ++ [Fetch (request_of (react w))] |}.
Proof. reflexivity. Qed.

Lemma reading_run env w :
  reading env w
  = {| react :=
         with_messages
           (fun prev => prev ++ [message_at env (2 + tick w) assistant (VStr "") (VBool false)])
           (react (requested env w));
       tick := 4 + tick w;
       trace := trace (requested env w) |}.
Proof. reflexivity. Qed.

Lemma caught_run env w1 :
  caught env w1
  = {| react :=
         with_messages
           (fun prev => prev ++ [message_at env (tick w1) assistant
                                   (VStr error_notice) VUndefined])
           (react w1);
       tick := 2 + tick w1;
       trace := trace w1 ++ [ConsoleError] |}.
Proof. reflexivity. Qed.

Lemma settled_run w1 :
  settled w1
  = {| react := with_streamingText (VStr "")
                  (with_isStreaming false (with_loading false (react w1)));
       tick := tick w1;
       trace := trace w1 |}.
Proof. reflexivity. Qed.

(** The transcript a call that goes past the guard leaves: the old
    messages as the stream left them, the user's message, then the
    placeholder if the body was reached, then the notice if anything
    was thrown. *)
Lemma exchange_transcript env w :
  exists old' added,
    messages (react (exchange_outcome env w)) = old' ++ added /\
    Forall2 (same_message_but (placeholder_id env w)) (messages (react w)) old' /\
    map id added = ids_added env (tick w) /\
    input (react (exchange_outcome env w)) = "".
Proof.
  unfold exchange_outcome, ids_added.
  assert (Hopen :
    exists old' added,
      messages (react (settled (caught env (requested env w)))) = old' ++ added /\
      Forall2 (same_message_but (placeholder_id env w)) (messages (react w)) old' /\
      map id added = [toString (clock env (tick w)); toString (clock env (2 + tick w))] /\
      input (react (settled (caught env (requested env w)))) = "").
  { rewrite settled_run, caught_run, requested_run. fields.
    eexists _, [_; _]. rewrite <- app_assoc. cbn [app].
    repeat split; [apply same_messages_refl]. }
  destruct (network env) as [[[|] [[cs e]|]]|]; cbn [ok body negb chunks ending];
    try exact Hopen.
  pose proof (read_loop_shape (placeholder_id env w) cs e (reading env w)) as Hs.
  pose proof (read_loop_frame (placeholder_id env w) cs e (reading env w)) as Hf.
  cbn zeta in Hf. destruct Hf as (Hin & _ & _ & Htick).
  set (w1 := snd (read_loop (placeholder_id env w) cs e (reading env w))) in *.
  rewrite reading_run, requested_run in Hs, Hin, Htick. fields.
  rewrite <- app_assoc in Hs. cbn [app] in Hs.
  apply Forall2_app_inv_l in Hs as (old' & new' & Hold & Hnew & Hms).
  pose proof (same_messages_ids Hnew) as Hids. cbn [map id message_at] in Hids.
  destruct e.
  - rewrite settled_run. fields. exists old', new'. repeat split; assumption.
  - rewrite settled_run, caught_run. fields. rewrite Hms, Htick.
    exists old', (new' ++ [message_at env (4 + tick w) assistant (VStr error_notice) VUndefined]).
    rewrite app_assoc, map_app, Hids. repeat split; assumption.
Qed.

(** X2. Take a call that goes past the guard and whose network
    activity comes to an end: [fetch] resolves or rejects, and the
    body, if there is one, ends or fails after finitely many chunks
    (which is all an [Env] can describe; a request that stays pending
    is not covered). Whatever the outcome, the call does not throw,
    and it leaves the page idle, the input box empty, no streaming
    text, and a transcript that is longer than before by the two or
    three messages of [ids_added]. *)
Theorem exchange_always_settles (env : Env) (w : World) :
  ready (react w) ->
  let r := sendMessage env w in
  fst r = Normal tt /\
  idle (react (snd r)) /\
  input (react (snd r)) = "" /\
  streamingText (react (snd r)) = VStr "" /\
  List.length (messages (react (snd r)))
  = (List.length (messages (react w)) + List.length (ids_added env (tick w)))%nat.
Proof.
  intros Hready. cbn zeta. rewrite sendMessage_outcome by exact Hready. cbn [fst snd].
  destruct (exchange_transcript env w) as (old' & added & Hms & Hold & Hids & Hin).
  split; [reflexivity|]. split; [|split; [exact Hin|split]].
  - unfold exchange_outcome. rewrite settled_run. split; reflexivity.
  - unfold exchange_outcome. rewrite settled_run. reflexivity.
  - rewrite Hms, length_app, (same_messages_length Hold), <- Hids, length_map. reflexivity.
Qed.

(** X3. The ids an exchange adds are clock readings: the transcript's
    ids afterwards are the ids before, then the first and third
    reading, then the fifth if reading the body rejected. So the ids
    stay pairwise distinct when these are new; and the readings being
    different from one another is enough for the new ids to differ
    from one another. *)
Theorem exchange_adds_ids (env : Env) (w : World) :
  ready (react w) ->
  let before := map id (messages (react w)) in
  let after := map id (messages (react (snd (sendMessage env w)))) in
  let n := tick w in
  after = before ++ ids_added env n /\
  (NoDup (before ++ ids_added env n) -> NoDup after) /\
  (clock env n <> clock env (2 + n) -> clock env n <> clock env (4 + n) ->
   clock env (2 + n) <> clock env (4 + n) -> NoDup (ids_added env n)).
Proof.
  intros Hready. cbn zeta. rewrite sendMessage_outcome by exact Hready. cbn [snd].
  destruct (exchange_transcript env w) as (old' & added & Hms & Hold & Hids & _).
  assert (E : map id (messages (react (exchange_outcome env w)))
              = map id (messages (react w)) ++ ids_added env (tick w)).
  { rewrite Hms, map_app, (same_messages_ids Hold), Hids. reflexivity. }
  split; [exact E|]. split; [rewrite E; auto|].
  intros H02 H04 H24. unfold ids_added.
  assert (N2 : NoDup [toString (clock env (tick w)); toString (clock env (2 + tick w))]).
  { repeat constructor; cbn [In]; try tauto.
    intros [H|[]]. apply toString_inj in H. congruence. }
  destruct (network env) as [[[|] [[cs [|]]|]]|]; try exact N2.
  repeat constructor; cbn [In]; try tauto.
  - intros [H|[H|[]]]; apply toString_inj in H; congruence.
  - intros [H|[]]. apply toString_inj in H. congruence.
Qed.

End Settling.

Section Endings.

Context {platform : Platform}.

(** X4. When the exchange cannot be opened ([fetch] rejects, the
    response is not ok, or it has no body), the user's message stays
    in the transcript and the notice comes right after it: there is no
    placeholder, the earlier messages are untouched, and the artifact,
    the preview flag and the conversation id are as before. *)
Theorem failed_open_keeps_user_message (env : Env) (w : World) :
  ready (react w) ->
  (network env = None \/
   exists response, network env = Some response /\
                    (ok response = false \/ body response = None)) ->
  let s' := react (snd (sendMessage env w)) in
  messages s'
  = messages (react w) ++
    [message_at env (tick w) user (VStr (input (react w))) VUndefined;
     message_at env (2 + tick w) assistant (VStr error_notice) VUndefined] /\
  generatedHtml s' = generatedHtml (react w) /\
  showPreview s' = showPreview (react w) /\
  conversationId s' = conversationId (react w).
Proof.
  intros Hready Hfail. cbn zeta. rewrite sendMessage_outcome by exact Hready. cbn [snd].
  assert (E : exchange_outcome env w = settled (caught env (requested env w))).
  { unfold exchange_outcome.
    destruct Hfail as [-> | (response & -> & [Hok | Hbody])]; [reflexivity| |].
    - rewrite Hok. reflexivity.
    - rewrite Hbody. destruct (negb (ok response)); reflexivity. }
  rewrite E, settled_run, caught_run, requested_run. fields.
  rewrite <- app_assoc. repeat split.
Qed.

(** X5. When the body is read to its end, no notice is added: the
    transcript ends with the placeholder, after the earlier messages
    and the user's. Unless a [complete] record was in the stream the
    placeholder holds what the last [text_chunk] record carried, so a
    body without records leaves an empty assistant message. *)
Theorem finished_stream_ends_with_placeholder
  (env : Env) (w : World) (reader : Reader) :
  ready (react w) ->
  network env = Some {| ok := true; body := Some reader |} ->
  ending reader = EndOfStream ->
  let ms := messages (react (snd (sendMessage env w))) in
  exists earlier placeholder,
    ms = earlier ++ [placeholder] /\
    List.length earlier = S (List.length (messages (react w))) /\
    id placeholder = placeholder_id env w /\
    role placeholder = assistant /\
    (forallb (fun l => negb (is_complete_record l)) (lines_of (chunks reader)) = true ->
     content placeholder = last_text (lines_of (chunks reader))).
Proof.
  intros Hready Hnet Hend. cbn zeta. rewrite sendMessage_outcome by exact Hready. cbn [snd].
  unfold exchange_outcome. rewrite Hnet. cbn [ok body negb]. rewrite Hend. cbn zeta.
  rewrite settled_run. fields.
  destruct (@read_loop_placeholder platform (placeholder_id env w)
              (S (List.length (messages (react w)))) (chunks reader) EndOfStream
              (VStr "") (reading env w)) as [[c1 H1] H2].
  { rewrite reading_run, requested_run. fields. unfold placeholder_holds.
    eexists _, _. split; [reflexivity|]. rewrite length_app. cbn.
    repeat split; auto. lia. }
  destruct H1 as (earlier & p & E1 & Hn & Hid & Hrole & _).
  exists earlier, p. repeat split; auto.
  intros Hall. destruct (H2 Hall) as (earlier' & p' & E & _ & _ & _ & Hc').
  rewrite E1 in E. apply app_inj_tail in E as [_ <-]. exact Hc'.
Qed.

End Endings.

(** The three ways the opening can fail, on a page with one earlier
    message. *)
Lemma failed_open_keeps_user_message_witness :
  let env := mkEnv (ticking 1700000000000) (Some {| ok := false; body := None |}) in
  let w := world_of (with_input "hello"
                       (with_messages (fun _ => [mkMessage "7" user (VStr "hi") "" VUndefined])
                          initial)) in
  let s' := react (snd (sendMessage env w)) in
  messages s'
  = messages (react w) ++
    [message_at env (tick w) user (VStr (input (react w))) VUndefined;
     message_at env (2 + tick w) assistant (VStr error_notice) VUndefined] /\
  generatedHtml s' = generatedHtml (react w) /\
  showPreview s' = showPreview (react w) /\
  conversationId s' = conversationId (react w).
Proof.
  intros env w. apply (@failed_open_keeps_user_message reference_platform env w).
  - repeat split; reflexivity.
  - right. eexists. split; [reflexivity|]. left. reflexivity.
Defined.

Lemma exchange_always_settles_witness :
  let env := mkEnv (ticking 1700000000000)
               (streaming [bytes login_form_response] EndOfStream) in
  let w := world_of (with_input "Create a login form" initial) in
  let r := sendMessage env w in
  fst r = Normal tt /\
  idle (react (snd r)) /\
  input (react (snd r)) = "" /\
  streamingText (react (snd r)) = VStr "" /\
  List.length (messages (react (snd r)))
  = (List.length (messages (react w)) + List.length (ids_added env (tick w)))%nat.
Proof.
  intros env w. apply (@exchange_always_settles reference_platform env w).
  repeat split; reflexivity.
Defined.

Lemma exchange_adds_ids_witness :
  let env := mkEnv (ticking 1700000000000) (streaming [] ReadFails) in
  let w := world_of (with_input "hello" initial) in
  let before := map id (messages (react w)) in
  let after := map id (messages (react (snd (sendMessage env w)))) in
  let n := tick w in
  after = before ++ ids_added env n /\
  (NoDup (before ++ ids_added env n) -> NoDup after) /\
  (clock env n <> clock env (2 + n) -> clock env n <> clock env (4 + n) ->
   clock env (2 + n) <> clock env (4 + n) -> NoDup (ids_added env n)).
Proof.
  intros env w. apply (@exchange_adds_ids reference_platform env w).
  repeat split; reflexivity.
Defined.

(** A body that ends without a single record. *)
Lemma finished_stream_ends_with_placeholder_witness :
  let reader := {| chunks := []; ending := EndOfStream |} in
  let env := mkEnv (ticking 1700000000000) (Some {| ok := true; body := Some reader |}) in
  let w := world_of (with_input "hello" initial) in
  let ms := messages (react (snd (sendMessage env w))) in
  exists earlier placeholder,
    ms = earlier ++ [placeholder] /\
    List.length earlier = S (List.length (messages (react w))) /\
    id placeholder = placeholder_id env w /\
    role placeholder = assistant /\
    (forallb (fun l => negb (is_complete_record l)) (lines_of (chunks reader)) = true ->
     content placeholder = last_text (lines_of (chunks reader))).
Proof.
  intros reader env w.
  apply (@finished_stream_ends_with_placeholder reference_platform env w reader).
  - repeat split; reflexivity.
  - reflexivity.
  - reflexivity.
Defined.

(** ** The controls *)

Section Controls.

Context {platform : Platform}.

(** X6. The send button is disabled exactly when [sendMessage] would
    do nothing at all; and while it is disabled [handleKeyPress] does
    nothing either, whatever the key event, Enter included. (Typing
    goes through another handler, [onChange], and is not meant.) *)
Theorem send_button_matches_guard (env : Env) (w : World) :
  (send_disabled (react w) = true <-> sendMessage env w = (Normal tt, w)) /\
  (send_disabled (react w) = true ->
   forall e, snd (handleKeyPress env e w) = w).
Proof.
  assert (Hnoop : send_disabled (react w) = true -> sendMessage env w = (Normal tt, w)).
  { unfold send_disabled, sendMessage, bind, get_state. intros H.
    replace (trim_is_empty (input (react w)) || loading (react w) || isStreaming (react w))
      with true; [reflexivity|].
    symmetry. rewrite <- H.
    destruct (trim_is_empty (input (react w))), (loading (react w)),
      (isStreaming (react w)); reflexivity. }
  split; [split; [exact Hnoop|] |].
  - intros Hsame. destruct (send_disabled (react w)) eqn:Hd; [reflexivity|].
    assert (Hready : ready (react w)).
    { unfold send_disabled in Hd. unfold ready, idle.
      destruct (loading (react w)), (isStreaming (react w)),
        (trim_is_empty (input (react w))); try discriminate; auto. }
    rewrite sendMessage_outcome in Hsame by exact Hready.
    injection Hsame as Hw.
    destruct (exchange_transcript env w) as (old' & added & Hms & Hold & Hids & _).
    rewrite Hw in Hms. apply (f_equal (@List.length Message)) in Hms.
    rewrite length_app, (same_messages_length Hold) in Hms.
    apply (f_equal (@List.length string)) in Hids. rewrite length_map in Hids.
    unfold ids_added in Hids. cbn [List.length] in Hids. lia.
  - intros Hd e. unfold handleKeyPress.
    destruct ((key e =? "Enter") && negb (shiftKey e)); [|reflexivity].
    unfold bind. rewrite (Hnoop Hd). reflexivity.
Qed.

End Controls.

Lemma send_button_matches_guard_witness :
  let env := mkEnv (ticking 1700000000000) None in
  let w := world_of (with_input "   " initial) in
  (send_disabled (react w) = true <-> sendMessage env w = (Normal tt, w)) /\
  (send_disabled (react w) = true ->
   forall e, snd (handleKeyPress env e w) = w).
Proof.
  intros env w. apply (@send_button_matches_guard reference_platform env w).
Defined.

(** ** More on single events *)

Lemma replaceById_absorbs target f g ms :
  (forall m, id (g m) = id m) ->
  (forall m, f (g m) = f m) ->
  replaceById target f (replaceById target g ms) = replaceById target f ms.
Proof.
  intros Hid Hfg. unfold replaceById. rewrite map_map. apply map_ext. intros m.
  destruct (id m =? target) eqn:E.
  - rewrite Hid, E. apply Hfg.
  - rewrite E. reflexivity.
Qed.

Section SingleEvents.

Context {platform : Platform}.

Variable streamingMessageId : string.

(** X7. A framed record that parses but is not one of the four known
    events changes nothing, not even the log: an unknown [type], no
    [type] at all, a number, a string or an array. A payload that is
    [null] makes the dispatch throw; it is logged and passed over. *)
Theorem unknown_record_is_inert (line : string) (data : value) (w : World) :
  is_record line = true ->
  JSON_parse (slice 6 line) = Some data ->
  (forall type, get_prop data "type" = Some type -> unrecognised type = true ->
                process_line streamingMessageId line w = (Normal Continue, w)) /\
  (get_prop data "type" = None ->
   process_line streamingMessageId line w = (Normal Continue, logged [ConsoleError] w)).
Proof.
  intros Hrec Hparse. unfold process_line. unfold is_record in Hrec.
  rewrite Hrec, Hparse. unfold try_catch, handle_data, prop. split.
  - intros type Hty Hun. unfold bind at 1. rewrite Hty. unfold ret at 1.
    unfold unrecognised in Hun. apply negb_true_iff in Hun.
    apply orb_false_iff in Hun as [Hun Hc]. apply orb_false_iff in Hun as [Hun Hhc].
    apply orb_false_iff in Hun as [Ht Hh].
    rewrite Ht, Hh, Hhc, Hc. reflexivity.
  - intros Hty. unfold bind at 1. rewrite Hty. reflexivity.
Qed.

(** X8. Of two events of a kind applied one after the other, the later
    one decides the state: two [text_chunk] events leave what the
    second alone would leave, and so do two artifact events, each an
    [html_chunk] or an [html_complete]. *)
Theorem later_event_of_a_kind_wins (first second type1 type2 : value) (w : World) :
  get_prop first "type" = Some type1 ->
  get_prop second "type" = Some type2 ->
  strict_eq_str type1 "text_chunk" && strict_eq_str type2 "text_chunk"
  || (strict_eq_str type1 "html_chunk" || strict_eq_str type1 "html_complete")
     && (strict_eq_str type2 "html_chunk" || strict_eq_str type2 "html_complete") = true ->
  react (snd (handle_data streamingMessageId second
                (snd (handle_data streamingMessageId first w))))
  = react (snd (handle_data streamingMessageId second w)).
Proof.
  intros H1 H2 Hkind.
  destruct (get_prop_total first "accumulated_text" H1) as [a1 Ha1].
  destruct (get_prop_total second "accumulated_text" H2) as [a2 Ha2].
  destruct (get_prop_total first "html_content" H1) as [h1 Hh1].
  destruct (get_prop_total second "html_content" H2) as [h2 Hh2].
  apply orb_true_iff in Hkind as [Hkind | Hkind];
    apply andb_true_iff in Hkind as [K1 K2].
  - apply strict_eq_str_true in K1, K2. subst type1 type2.
    rewrite (handle_text_chunk streamingMessageId first w H1 Ha1). cbn [snd].
    rewrite !(handle_text_chunk streamingMessageId second _ H2 Ha2). cbn [snd react].
    apply state_ext; fields; try reflexivity.
    apply replaceById_absorbs; intros []; reflexivity.
  - assert (Hk1 : type1 = VStr "html_chunk" \/ type1 = VStr "html_complete").
    { apply orb_true_iff in K1 as [E|E]; apply strict_eq_str_true in E; auto. }
    assert (Hk2 : type2 = VStr "html_chunk" \/ type2 = VStr "html_complete").
    { apply orb_true_iff in K2 as [E|E]; apply strict_eq_str_true in E; auto. }
    rewrite (handle_html_chunk streamingMessageId first w H1 Hk1 Hh1). cbn [snd].
    rewrite !(handle_html_chunk streamingMessageId second _ H2 Hk2 Hh2). cbn [snd react].
    apply state_ext; fields; try reflexivity.
    apply replaceById_absorbs; intros []; reflexivity.
Qed.

(** X9. A [complete] event never takes the artifact away: when it
    carries no markup (the field is missing, empty, [null] or
    [false]), the stored artifact and the preview flag stay as they
    are and no refresh is scheduled. *)
Theorem complete_without_markup_keeps_artifact (data markup : value) (w : World) :
  get_prop data "type" = Some (VStr "complete") ->
  get_prop data "html_content" = Some markup ->
  truthy markup = false ->
  let w' := snd (handle_data streamingMessageId data w) in
  generatedHtml (react w') = generatedHtml (react w) /\
  showPreview (react w') = showPreview (react w) /\
  trace w' = trace w.
Proof.
  intros Hty Hh Hfalsy.
  destruct (get_prop_total data "conversation_id" Hty) as [c Hc].
  destruct (get_prop_total data "final_text" Hty) as [f Hf].
  destruct (get_prop_total data "is_ui" Hty) as [u Hu].
  cbn zeta. rewrite (handle_complete streamingMessageId data w Hty Hc Hh Hf Hu).
  cbn zeta. rewrite Hfalsy. fields. repeat split.
Qed.

(** X10. An artifact event stores whatever it carries. When that is
    nothing (the field is missing or empty), the artifact is gone: the
    preview pane falls back to its empty state, while the placeholder
    is marked as a generated page and shows the badge. *)
Theorem empty_artifact_event_blanks_preview
  (data type markup : value) (n : nat) (c : value) (w : World) :
  get_prop data "type" = Some type ->
  type = VStr "html_chunk" \/ type = VStr "html_complete" ->
  get_prop data "html_content" = Some markup ->
  truthy markup = false ->
  placeholder_holds streamingMessageId n c (messages (react w)) ->
  let s' := react (snd (handle_data streamingMessageId data w)) in
  generatedHtml s' = markup /\
  preview_pane_shows_artifact s' = false /\
  exists earlier placeholder,
    messages s' = earlier ++ [placeholder] /\
    id placeholder = streamingMessageId /\
    badge_shown placeholder = true.
Proof.
  intros Hty Hkind Hh Hfalsy (earlier & p & Hms & _ & Hid & _ & _).
  cbn zeta. rewrite (handle_html_chunk streamingMessageId data w Hty Hkind Hh).
  fields. unfold preview_pane_shows_artifact. fields. rewrite Hms, replaceById_app.
  split; [reflexivity|]. split; [exact Hfalsy|].
  eexists _, _. split; [reflexivity|].
  cbn [replaceById map]. rewrite Hid, String.eqb_refl. split; [exact Hid | reflexivity].
Qed.

(** X11. A [complete] event has the last word on the placeholder: its
    content becomes the event's [final_text] and its mark the event's
    [is_ui], whatever text was streamed and whether or not an artifact
    event had marked it; and the loop over the lines is left. *)
Theorem complete_finalizes_placeholder
  (data final ui : value) (n : nat) (c : value) (w : World) :
  get_prop data "type" = Some (VStr "complete") ->
  get_prop data "final_text" = Some final ->
  get_prop data "is_ui" = Some ui ->
  placeholder_holds streamingMessageId n c (messages (react w)) ->
  let r := handle_data streamingMessageId data w in
  fst r = Normal Break /\
  exists earlier placeholder,
    messages (react (snd r)) = earlier ++ [placeholder] /\
    List.length earlier = n /\
    id placeholder = streamingMessageId /\
    content placeholder = final /\
    is_generated_ui placeholder = ui.
Proof.
  intros Hty Hf Hu (earlier & p & Hms & Hn & Hid & _ & _).
  destruct (get_prop_total data "conversation_id" Hty) as [ci Hc].
  destruct (get_prop_total data "html_content" Hty) as [h Hh].
  cbn zeta. rewrite (handle_complete streamingMessageId data w Hty Hc Hh Hf Hu).
  cbn zeta. split; [reflexivity|].
  exists (replaceById streamingMessageId
            (fun msg => with_is_generated_ui ui (with_content final msg)) earlier),
         (with_is_generated_ui ui (with_content final p)).
  destruct (truthy h); fields; rewrite Hms, replaceById_app, replaceById_length;
    cbn [replaceById map]; rewrite Hid, String.eqb_refl; repeat split; auto.
Qed.

(** X12. Chunks that hold no framed record (blank lines, comments,
    other fields of the event stream, a record without the space after
    the marker) change nothing: reading them is reading nothing. *)
Theorem chunks_without_records_are_inert (cs : list (list byte)) (e : Ending) (w : World) :
  forallb (fun l => negb (is_record l)) (lines_of cs) = true ->
  read_loop streamingMessageId cs e w = read_loop streamingMessageId [] e w.
Proof.
  revert w. induction cs as [|value rest IH]; intros w H; [reflexivity|].
  unfold lines_of in H. cbn [flat_map] in H. rewrite forallb_app in H.
  apply andb_true_iff in H as [Hhere Hrest].
  cbn [read_loop]. unfold bind at 1.
  rewrite for_lines_unframed by exact Hhere. apply IH. exact Hrest.
Qed.

End SingleEvents.

(** A heartbeat record, and a bare number. *)
Lemma unknown_record_is_inert_witness :
  let line := json "data: {'type':'ping'}" in
  let data := VObj [("type", VStr "ping")] in
  let w := world_of initial in
  (forall type, get_prop data "type" = Some type -> unrecognised type = true ->
                process_line "7" line w = (Normal Continue, w)) /\
  (get_prop data "type" = None ->
   process_line "7" line w = (Normal Continue, logged [ConsoleError] w)).
Proof.
  intros line data w.
  apply (@unknown_record_is_inert reference_platform "7" line data w);
    vm_compute; reflexivity.
Defined.

Lemma later_event_of_a_kind_wins_witness :
  let first := VObj [("type", VStr "html_chunk"); ("html_content", VStr "<form>")] in
  let second := VObj [("type", VStr "html_complete");
                      ("html_content", VStr "<form></form>")] in
  let w := world_of (with_messages
                       (fun _ => [mkMessage "7" assistant (VStr "") "" (VBool false)])
                       initial) in
  react (snd (handle_data "7" second (snd (handle_data "7" first w))))
  = react (snd (handle_data "7" second w)).
Proof.
  intros first second w.
  apply (@later_event_of_a_kind_wins "7" first second (VStr "html_chunk")
           (VStr "html_complete") w); reflexivity.
Defined.

(** A [complete] event without markup after an artifact was stored. *)
Lemma complete_without_markup_keeps_artifact_witness :
  let data := VObj [("type", VStr "complete"); ("conversation_id", VStr "c1");
                    ("final_text", VStr "Done"); ("is_ui", VBool false)] in
  let w := world_of (with_showPreview true
                       (with_generatedHtml (VStr "<form></form>") initial)) in
  let w' := snd (handle_data "7" data w) in
  generatedHtml (react w') = generatedHtml (react w) /\
  showPreview (react w') = showPreview (react w) /\
  trace w' = trace w.
Proof.
  intros data w.
  apply (@complete_without_markup_keeps_artifact "7" data VUndefined w); reflexivity.
Defined.

(** An [html_chunk] event with empty markup after an artifact was
    stored. *)
Lemma empty_artifact_event_blanks_preview_witness :
  let data := VObj [("type", VStr "html_chunk"); ("html_content", VStr "")] in
  let w := world_of (with_generatedHtml (VStr "<form></form>")
                       (with_messages
                          (fun _ => [mkMessage "7" assistant (VStr "") "" (VBool false)])
                          initial)) in
  let s' := react (snd (handle_data "7" data w)) in
  generatedHtml s' = VStr "" /\
  preview_pane_shows_artifact s' = false /\
  exists earlier placeholder,
    messages s' = earlier ++ [placeholder] /\
    id placeholder = "7" /\
    badge_shown placeholder = true.
Proof.
  intros data w.
  apply (@empty_artifact_event_blanks_preview "7" data (VStr "html_chunk") (VStr "")
           0%nat (VStr "") w); try reflexivity.
  - left. reflexivity.
  - exists [], (mkMessage "7" assistant (VStr "") "" (VBool false)).
    repeat split.
Defined.

(** A placeholder that an artifact event had marked, finalized by a
    [complete] event that says it is no page. *)
Lemma complete_finalizes_placeholder_witness :
  let data := VObj [("type", VStr "complete"); ("conversation_id", VStr "c1");
                    ("final_text", VStr "Done"); ("is_ui", VBool false)] in
  let w := world_of (with_messages
                       (fun _ => [mkMessage "7" assistant (VStr "Do") "" (VBool true)])
                       initial) in
  let r := handle_data "7" data w in
  fst r = Normal Break /\
  exists earlier placeholder,
    messages (react (snd r)) = earlier ++ [placeholder] /\
    List.length earlier = 0%nat /\
    id placeholder = "7" /\
    content placeholder = VStr "Done" /\
    is_generated_ui placeholder = VBool false.
Proof.
  intros data w.
  apply (@complete_finalizes_placeholder "7" data (VStr "Done") (VBool false)
           0%nat (VStr "Do") w); try reflexivity.
  exists [], (mkMessage "7" assistant (VStr "Do") "" (VBool true)). repeat split.
Defined.

(** A comment line, an [event] field and a record whose marker lacks
    the space. *)
Lemma chunks_without_records_are_inert_witness :
  let cs := [bytes (": keep-alive" ++ LF ++ LF)%string;
             bytes ("event: message" ++ LF ++ json "data:{'type':'complete'}" ++ LF)%string] in
  let w := world_of initial in
  read_loop "7" cs EndOfStream w = read_loop "7" [] EndOfStream w.
Proof.
  intros cs w.
  apply (@chunks_without_records_are_inert reference_platform "7" cs EndOfStream w).
  vm_compute. reflexivity.
Defined.

(** ** The rendering surfaces and the blob URLs *)

Section Surfaces.

Import Dom.

Variable b : Browser.

Lemma Frame_eqb_eq f g : Frame_eqb f g = true <-> f = g.
Proof. destruct f, g; cbn; split; congruence. Qed.

Lemma Frame_eqb_refl f : Frame_eqb f f = true.
Proof. destruct f; reflexivity. Qed.

(** What one update does to what a frame shows. *)
Lemma shown_update g html d f :
  shown (updateIframeContent b (Some g) html d) f
  = if Frame_eqb g f && (blob_urls b || document_of b g && writable b g)
    then Some html else shown d f.
Proof.
  unfold shown, updateIframeContent, createObjectURL, call.
  destruct (blob_urls b).
  - cbn [orb calls next_url]. rewrite andb_true_r, <- app_assoc, fold_left_app.
    cbn [app fold_left bind_step fst snd].
    destruct (Frame_eqb g f); [|reflexivity].
    cbn [find fst snd]. rewrite Nat.eqb_refl. reflexivity.
  - cbn [orb]. destruct (document_of b g); [destruct (writable b g)|];
      cbn [andb calls next_url]; rewrite ?andb_false_r, <- ?app_assoc, fold_left_app;
      cbn [app fold_left bind_step fst snd]; try reflexivity.
    destruct (Frame_eqb g f); reflexivity.
Qed.

(** X13. After the surfaces have been refreshed with a payload, every
    surface that could be given content shows that payload, the inline
    and the full-screen one alike; a surface that is not mounted, or
    that takes neither a blob URL nor a direct write, keeps what it
    showed: the update is dropped for it. *)
Theorem refresh_reaches_every_bindable_surface (html : value) (d : Dom) (f : Frame) :
  shown (refresh_surfaces b html d) f
  = if bindable b f then Some html else shown d f.
Proof.
  assert (Hcur : forall g d0,
    shown (updateIframeContent b (current b g) html d0) f
    = if Frame_eqb g f && bindable b g then Some html else shown d0 f).
  { intros g d0. unfold current, bindable. destruct (mounted b g).
    - rewrite shown_update. reflexivity.
    - rewrite andb_false_r. reflexivity. }
  unfold refresh_surfaces. rewrite !Hcur.
  destruct f; cbn [Frame_eqb andb];
    destruct (bindable b InlineFrame), (bindable b FullScreenFrame); reflexivity.
Qed.

Lemma created_urls_app cs1 cs2 :
  created_urls (cs1 ++ cs2) = created_urls cs1 ++ created_urls cs2.
Proof. apply flat_map_app. Qed.

Lemma released_urls_app cs1 cs2 :
  released_urls (cs1 ++ cs2) = released_urls cs1 ++ released_urls cs2.
Proof. apply flat_map_app. Qed.

Lemma opened_urls_app cs1 cs2 :
  opened_urls (cs1 ++ cs2) = opened_urls cs1 ++ opened_urls cs2.
Proof. apply flat_map_app. Qed.

(** A new URL that is released at once or later ([keeps = false]) or
    handed to a new tab ([keeps = true]). *)
Lemma urls_in_order_step d cs (keeps : bool) :
  urls_in_order d ->
  created_urls cs = [next_url d] ->
  released_urls cs = (if keeps then [] else [next_url d]) ->
  opened_urls cs = (if keeps then [next_url d] else []) ->
  urls_in_order {| next_url := S (next_url d); calls := calls d ++ cs |}.
Proof.
  intros (Hlt & Hnd & Hop & Hrel) Hc Hr Ho.
  unfold urls_in_order. cbn [calls next_url].
  rewrite created_urls_app, released_urls_app, opened_urls_app, Hc, Hr, Ho.
  assert (Hfresh : ~ In (next_url d) (created_urls (calls d))).
  { intros Hin. apply Hlt in Hin. lia. }
  split; [|split; [|split]].
  - intros u Hin. apply in_app_or in Hin as [Hin | [<- | []]]; [apply Hlt in Hin|]; lia.
  - apply NoDup_app; [exact Hnd | repeat constructor; intros [] |].
    intros u Hin [<- | []]. exact (Hfresh Hin).
  - intros u Hin. apply in_or_app. destruct keeps.
    + apply in_app_or in Hin as [Hin | Hin]; [left; apply Hop; exact Hin | right; exact Hin].
    + rewrite app_nil_r in Hin. left. apply Hop. exact Hin.
  - rewrite filter_app, Hrel. destruct keeps.
    + cbn [filter]. rewrite existsb_app. cbn [existsb]. rewrite Nat.eqb_refl, orb_true_r.
      cbn [negb]. rewrite !app_nil_r. apply filter_ext_in. intros u Hin.
      rewrite existsb_app. cbn [existsb]. rewrite orb_false_r.
      destruct (Nat.eqb_spec u (next_url d)); [subst u; contradiction|].
      rewrite orb_false_r. reflexivity.
    + rewrite app_nil_r. cbn [filter]. f_equal.
      destruct (existsb (Nat.eqb (next_url d)) (opened_urls (calls d))) eqn:E;
        [|reflexivity].
      apply existsb_exists in E as (x & Hin & Heq). apply Nat.eqb_eq in Heq. subst x.
      exfalso. apply Hfresh. apply Hop. exact Hin.
Qed.

Lemma urls_in_order_quiet d cs :
  urls_in_order d ->
  created_urls cs = [] -> released_urls cs = [] -> opened_urls cs = [] ->
  urls_in_order (call cs d).
Proof.
  intros H Hc Hr Ho. unfold urls_in_order, call in *. cbn [calls next_url].
  rewrite created_urls_app, released_urls_app, opened_urls_app, Hc, Hr, Ho, !app_nil_r.
  exact H.
Qed.

Lemma updateIframeContent_in_order iframe html d :
  urls_in_order d -> urls_in_order (updateIframeContent b iframe html d).
Proof.
  intros H. unfold updateIframeContent. destruct iframe as [f|]; [|exact H].
  destruct (blob_urls b).
  - unfold createObjectURL, call. cbn [calls next_url]. rewrite <- app_assoc.
    apply (@urls_in_order_step d _ false H); reflexivity.
  - destruct (document_of b f); [destruct (writable b f)|];
      repeat (apply urls_in_order_quiet; try reflexivity); exact H.
Qed.

Lemma act_in_order d a : urls_in_order d -> urls_in_order (act b d a).
Proof.
  intros H. destruct a as [html | f html | s | s]; cbn [act].
  - unfold refresh_surfaces. auto using updateIframeContent_in_order.
  - apply updateIframeContent_in_order. exact H.
  - unfold openInNewTab. destruct (truthy (generatedHtml s)); [|exact H].
    destruct (blob_urls b); [|exact H].
    unfold createObjectURL, call. cbn [calls next_url]. rewrite <- app_assoc.
    apply (@urls_in_order_step d _ true H); reflexivity.
  - unfold downloadHtml. destruct (truthy (generatedHtml s)); [|exact H].
    destruct (blob_urls b); [|exact H].
    unfold createObjectURL, call. cbn [calls next_url]. rewrite <- app_assoc.
    apply (@urls_in_order_step d _ false H); reflexivity.
Qed.

Lemma run_in_order actions : forall d,
  urls_in_order d -> urls_in_order (run b actions d).
Proof.
  induction actions as [|a rest IH]; intros d Hd; [exact Hd|].
  unfold run in *. cbn [fold_left]. apply IH. apply act_in_order. exact Hd.
Qed.

(** X14. Whatever the user and the timers do, in whatever order, no
    blob URL is made twice, and the URLs released (at once by the
    download, a second later by an update of a surface) are exactly
    the URLs made except those handed to a new tab: each of the former
    is released once, the latter never. *)
Theorem blob_urls_released_except_opened (actions : list Action) :
  let cs := calls (run b actions empty) in
  NoDup (created_urls cs) /\
  NoDup (released_urls cs) /\
  released_urls cs
  = filter (fun u => negb (existsb (Nat.eqb u) (opened_urls cs))) (created_urls cs).
Proof.
  cbn zeta.
  assert (H : urls_in_order (run b actions empty)).
  { apply run_in_order. unfold urls_in_order. cbn.
    repeat split; try constructor; intros u []. }
  destruct H as (_ & Hnd & _ & Hrel). split; [exact Hnd|]. split; [|exact Hrel].
  rewrite Hrel. apply NoDup_filter. exact Hnd.
Qed.

(** X15. A toggle flips the view, and registers a refresh of the
    full-screen surface (after 100 ms, with the stored artifact)
    exactly when it opens the view and an artifact is stored; a toggle
    that closes the view registers nothing. So two toggles, from either
    position, leave the view as it was. *)
Theorem two_toggles_restore_the_view (fullScreenPreview : bool) (s : State) (d : Dom) :
  let (once, d1) := toggleFullScreenPreview fullScreenPreview s d in
  let (twice, d2) := toggleFullScreenPreview once s d1 in
  once = negb fullScreenPreview /\
  twice = fullScreenPreview /\
  calls d1
  = calls d ++ (if negb fullScreenPreview && truthy (generatedHtml s)
                then [UpdateLater 100 FullScreenFrame (generatedHtml s)] else []) /\
  calls d2
  = calls d1 ++ (if fullScreenPreview && truthy (generatedHtml s)
                 then [UpdateLater 100 FullScreenFrame (generatedHtml s)] else []) /\
  next_url d2 = next_url d.
Proof.
  unfold toggleFullScreenPreview, call.
  destruct fullScreenPreview, (truthy (generatedHtml s)); cbn [negb andb calls next_url];
    rewrite ?app_nil_r; repeat split; reflexivity.
Qed.

End Surfaces.

(** ** The backend address *)

Lemma string_app_inv_head (a b c : string) : (a ++ b = a ++ c)%string -> b = c.
Proof. induction a as [|x a IH]; cbn; [auto | intros [= H]; auto]. Qed.

Lemma NoDup_map_injective {A B} (f : A -> B) (l : list A) :
  (forall x y, f x = f y -> x = y) -> NoDup l -> NoDup (map f l).
Proof.
  intros Hinj. induction 1 as [|x l Hnotin _ IH]; cbn [map]; constructor; [|exact IH].
  intros Hin. apply in_map_iff in Hin as (y & Heq & Hy). apply Hinj in Heq. congruence.
Qed.

(** X16. The address of the backend is never empty: an absent or empty
    [NEXT_PUBLIC_BACKEND_URL] gives [http://localhost:8000], anything
    else is taken as it is. An API address is that address followed by
    the endpoint, so different endpoints have different addresses; in
    particular the eight endpoints of the table have eight addresses,
    and the one the page posts to is the table's [chatStream]. *)
Theorem api_urls_are_distinct (NEXT_PUBLIC_BACKEND_URL : option string) :
  let env := NEXT_PUBLIC_BACKEND_URL in
  Config.backendUrl env <> "" /\
  (env = None \/ env = Some "" -> Config.backendUrl env = "http://localhost:8000") /\
  (forall url, env = Some url -> url <> "" -> Config.backendUrl env = url) /\
  (forall e1 e2, Config.getApiUrl env e1 = Config.getApiUrl env e2 -> e1 = e2) /\
  NoDup (map (fun p => Config.getApiUrl env (snd p)) Config.endpoints) /\
  (exists p, find (fun p => fst p =? "chatStream") Config.endpoints = Some p /\
             Config.stream_url env = Config.getApiUrl env (snd p)).
Proof.
  cbn zeta. set (env := NEXT_PUBLIC_BACKEND_URL).
  assert (Hinj : forall e1 e2, Config.getApiUrl env e1 = Config.getApiUrl env e2 -> e1 = e2).
  { intros e1 e2. apply string_app_inv_head. }
  repeat split.
  - unfold Config.backendUrl. destruct env as [url|]; [|discriminate].
    destruct (url =? "") eqn:E; [discriminate|]. apply String.eqb_neq. exact E.
  - intros [-> | ->]; reflexivity.
  - intros url -> Hne. unfold Config.backendUrl. apply String.eqb_neq in Hne.
    rewrite Hne. reflexivity.
  - exact Hinj.
  - rewrite <- (map_map snd (Config.getApiUrl env)).
    apply NoDup_map_injective; [exact Hinj|].
    unfold Config.endpoints. cbn [map snd].
    repeat constructor; cbn [In]; intuition discriminate.
  - eexists. split; reflexivity.
Qed.

(** ** The conversation id of an unfinished exchange *)

Section Unfinished.

Context {platform : Platform}.

Lemma process_line_keeps_conversationId sid line w :
  is_complete_record line = false ->
  conversationId (react (snd (process_line sid line w))) = conversationId (react w).
Proof.
  unfold is_complete_record, type_of_line, is_record, process_line.
  destruct (startsWith line "data: "); [|reflexivity].
  unfold try_catch. destruct (JSON_parse (slice 6 line)) as [data|]; [|reflexivity].
  intros Hnot.
  assert (H : conversationId (react (snd (handle_data sid data w)))
              = conversationId (react w)).
  { apply handle_data_keeps_conversationId. intros type Hty.
    rewrite Hty in Hnot. exact Hnot. }
  destruct (handle_data sid data w) as [[flow|e] w']; exact H.
Qed.

Lemma for_lines_keeps_conversationId sid lines : forall w,
  forallb (fun l => negb (is_complete_record l)) lines = true ->
  conversationId (react (snd (for_lines sid lines w))) = conversationId (react w).
Proof.
  induction lines as [|line rest IH]; intros w H; [reflexivity|].
  cbn [forallb] in H. apply andb_true_iff in H as [Hl Hrest]. apply negb_true_iff in Hl.
  cbn [for_lines]. unfold bind.
  pose proof (process_line_keeps_conversationId sid line w Hl) as Hc.
  destruct (process_line sid line w) as [[[|]|e] w1]; cbn [snd] in *; try exact Hc.
  rewrite IH by exact Hrest. exact Hc.
Qed.

Lemma read_loop_keeps_conversationId sid cs e : forall w,
  forallb (fun l => negb (is_complete_record l)) (lines_of cs) = true ->
  conversationId (react (snd (read_loop sid cs e w))) = conversationId (react w).
Proof.
  induction cs as [|value rest IH]; intros w H; cbn [read_loop].
  - destruct e; reflexivity.
  - unfold lines_of in H. cbn [flat_map] in H. rewrite forallb_app in H.
    apply andb_true_iff in H as [Hhere Hrest]. unfold bind.
    pose proof (for_lines_keeps_conversationId sid _ w Hhere) as Hc.
    destruct (for_lines_normal sid (split_lf (TextDecoder_decode value)) w) as [w1 Hw1].
    rewrite Hw1 in *. cbn [snd] in Hc. rewrite IH by exact Hrest. exact Hc.
Qed.

(** X17. The conversation id a [text_chunk] record carries is read and
    dropped: an exchange whose stream holds no [complete] record,
    however it ends, leaves the session's conversation id as it was,
    so the next request carries the old one (or none). *)
Theorem exchange_without_complete_keeps_conversationId
  (env : Env) (w : World) (reader : Reader) :
  ready (react w) ->
  network env = Some {| ok := true; body := Some reader |} ->
  forallb (fun l => negb (is_complete_record l)) (lines_of (chunks reader)) = true ->
  conversationId (react (snd (sendMessage env w))) = conversationId (react w).
Proof.
  intros Hready Hnet Hall. rewrite sendMessage_outcome by exact Hready. cbn [snd].
  unfold exchange_outcome. rewrite Hnet. cbn [ok body negb]. cbn zeta.
  pose proof (read_loop_keeps_conversationId (placeholder_id env w) (chunks reader)
                (ending reader) (reading env w) Hall) as Hc.
  rewrite reading_run, requested_run in Hc. fields.
  destruct (ending reader); rewrite settled_run, ?caught_run; fields; exact Hc.
Qed.

End Unfinished.

(** A stream of text that breaks off, each record naming the server's
    conversation. *)
Lemma exchange_without_complete_keeps_conversationId_witness :
  let record := framed "{'type':'text_chunk','accumulated_text':'Sure','conversation_id':'c1'}" in
  let reader := {| chunks := [bytes record]; ending := ReadFails |} in
  let env := mkEnv (ticking 1700000000000) (Some {| ok := true; body := Some reader |}) in
  let w := world_of (with_input "hello" initial) in
  conversationId (react (snd (sendMessage env w))) = conversationId (react w).
Proof.
  intros record reader env w.
  apply (@exchange_without_complete_keeps_conversationId reference_platform env w reader).
  - repeat split; reflexivity.
  - reflexivity.
  - vm_compute. reflexivity.
Defined.
